(** * Token estimator (src/tool/token.c): shallow embedding and verification

    The C program estimates how many tokens a text would take under a
    subword tokenizer.  This development embeds the three estimators
    [estimate_tokens], [estimate_tokens_advanced] and [quick_token_estimate]
    together with [is_code_pattern], and proves the properties the design
    document states about them; it then embeds [print_stats] and [main] and
    proves further properties of the whole program.

    Modelling conventions.
    - A [const char*] argument is a Rocq [string]; the C string it denotes is
      the prefix before the first NUL byte ([strlen] stops there), and the
      buffer holds one terminating NUL after it.  A read [text[i]] is [load];
      it is defined for [0 <= i <= strlen text] and is an [OutOfBounds]
      error anywhere else.
    - [int] is a 32-bit two's complement integer, carried as [Z]; every
      arithmetic result goes through [wrap_int].
    - [<ctype.h>] predicates are those of the "C" locale (the program never
      calls setlocale): bytes above 127 belong to no class.
    - [float] is IEEE-754 binary32 with round-to-nearest-even, through the
      Standard Library's [SpecFloat] at precision 24.
    - Every [while]/[for] loop of the source over the text is the [while]
      combinator on an explicit state; it takes fuel and reports [OutOfFuel]
      when the fuel does not suffice, so termination is a theorem and not an
      assumption.  The loop over the pattern table is a recursion on the
      table.
    - The standard input is the list of the bytes still to be read, the
      standard output the list of the items written; [printf] is left to
      render the numbers.

    The theorems are stated for texts that satisfy [fits_int]: their length
    plus 3 is at most INT_MAX, which is where the [int] arithmetic of the
    program does not overflow. *)

From Stdlib Require Import ZArith List Ascii String Bool Lia.
From Stdlib Require Import Floats.SpecFloat.
Import ListNotations.

Local Open Scope string_scope.
Local Open Scope list_scope.
Local Open Scope Z_scope.

(** ** Machine integers *)

Definition INT_MAX : Z := 2147483647.
Definition INT_MIN : Z := -2147483648.

Definition wrap_int (z : Z) : Z := (z + 2147483648) mod 4294967296 - 2147483648.

Definition int_add (a b : Z) : Z := wrap_int (a + b).
Definition int_sub (a b : Z) : Z := wrap_int (a - b).
(* C division truncates toward zero. *)
Definition int_div (a b : Z) : Z := wrap_int (Z.quot a b).

(** ** Results of a run: a value, or the reason there is none *)

Inductive error : Type := OutOfFuel | OutOfBounds.

Inductive result (A : Type) : Type :=
| Ok (a : A)
| Err (e : error).

Arguments Ok {A} a.
Arguments Err {A} e.

Definition bind {A B : Type} (m : result A) (k : A -> result B) : result B :=
  match m with
  | Ok a => k a
  | Err e => Err e
  end.

Notation "x <- m ;; k" := (bind m (fun x => k))
  (at level 61, m at next level, right associativity).

Notation "' pat <- m ;; k" := (bind m (fun x => match x with pat => k end))
  (at level 61, pat pattern, m at next level, right associativity).

(** [while cond body] runs [body] as long as [cond] holds. *)
Fixpoint while {S : Type} (cond : S -> result bool) (body : S -> result S)
         (fuel : nat) (s : S) : result S :=
  match fuel with
  | O => Err OutOfFuel
  | Datatypes.S fuel' =>
      b <- cond s ;;
      if b then s' <- body s ;; while cond body fuel' s' else Ok s
  end.

(** ** C strings *)

Definition NUL : ascii := Ascii.zero.
Definition DQUOTE : ascii := "034"%char.

Definition code (c : ascii) : Z := Z.of_N (N_of_ascii c).

(** The characters of the C string: everything before the first NUL. *)
Fixpoint cstr_chars (s : string) : list ascii :=
  match s with
  | EmptyString => []
  | String c r => if Ascii.eqb c NUL then [] else c :: cstr_chars r
  end.

Definition strlen (s : string) : nat := List.length (cstr_chars s).

(** [char_at s i] is the byte at offset [i] of the buffer: a character of
    the string, or the terminating NUL. *)
Definition char_at (s : string) (i : Z) : ascii :=
  nth (Z.to_nat i) (cstr_chars s) NUL.

Definition load (s : string) (i : Z) : result ascii :=
  if (0 <=? i) && (i <=? Z.of_nat (strlen s)) then Ok (char_at s i)
  else Err OutOfBounds.

(** ** <ctype.h>, "C" locale *)

Definition isspace (c : ascii) : bool :=
  (code c =? 32) || ((9 <=? code c) && (code c <=? 13)).

Definition isupper (c : ascii) : bool := (65 <=? code c) && (code c <=? 90).
Definition islower (c : ascii) : bool := (97 <=? code c) && (code c <=? 122).
Definition isalpha (c : ascii) : bool := isupper c || islower c.
Definition isdigit (c : ascii) : bool := (48 <=? code c) && (code c <=? 57).
Definition isalnum (c : ascii) : bool := isalpha c || isdigit c.
Definition isgraph (c : ascii) : bool := (33 <=? code c) && (code c <=? 126).
Definition ispunct (c : ascii) : bool := isgraph c && negb (isalnum c).

(** ** <string.h>: strncmp

    Compares at most [n] bytes of the buffers [s1] (from offset [p1]) and
    [s2] (from [p2]); it stops at the first difference and at a NUL. *)
Fixpoint strncmp (s1 : string) (p1 : Z) (s2 : string) (p2 : Z) (n : nat)
  : result Z :=
  match n with
  | O => Ok 0
  | S n' =>
      a <- load s1 p1 ;;
      b <- load s2 p2 ;;
      if negb (Ascii.eqb a b) then Ok (code a - code b)
      else if Ascii.eqb a NUL then Ok 0
      else strncmp s1 (p1 + 1) s2 (p2 + 1) n'
  end.

(** ** token.c *)

Record TokenStats : Type := mkStats { tokens : Z; words : Z; chars : Z }.

Definition is_separator (c : ascii) : bool := isspace c || ispunct c.

(** The table of [is_code_pattern], in its declared order. *)
Definition patterns : list string :=
  [ "->"; "++"; "--"; "=="; "!="; "<="; ">="; "&&"; "||";
    "<<"; ">>"; "+="; "-="; "*="; "/="; "%="; "^="; "&="; "|=";
    "::"; "//"; "/*"; "*/"; "/**"; "{"; "}"; "["; "]"; "("; ")";
    ";" ].

(** The [for] loop over the table, from the entry [pats] starts with. *)
Fixpoint is_code_pattern_from (pats : list string) (str : string)
         (pos len : Z) : result Z :=
  match pats with
  | [] => Ok 0
  | p :: rest =>
      let pattern_len := wrap_int (Z.of_nat (strlen p)) in
      if int_add pos pattern_len <=? len then
        r <- strncmp str pos p 0 (Z.to_nat pattern_len) ;;
        if r =? 0 then Ok pattern_len
        else is_code_pattern_from rest str pos len
      else is_code_pattern_from rest str pos len
  end.

Definition is_code_pattern (str : string) (pos len : Z) : result Z :=
  is_code_pattern_from patterns str pos len.

Definition add_tokens (n : Z) (stats : TokenStats) : TokenStats :=
  mkStats (int_add (tokens stats) n) (words stats) (chars stats).

Definition add_word (stats : TokenStats) : TokenStats :=
  mkStats (tokens stats) (int_add (words stats) 1) (chars stats).

(** [while (i < len && p(text[i])) i++;] *)
Definition run_cond (p : ascii -> bool) (text : string) (len : Z) (i : Z)
  : result bool :=
  if i <? len then c <- load text i ;; Ok (p c) else Ok false.

Definition run_body (i : Z) : result Z := Ok (int_add i 1).

(* The character is a double or a single quote (token.c:101). *)
Definition is_quote (c : ascii) : bool :=
  Ascii.eqb c DQUOTE || Ascii.eqb c "'".

Definition is_word_char (c : ascii) : bool := isalnum c || Ascii.eqb c "_".
Definition is_number_char (c : ascii) : bool := isdigit c || Ascii.eqb c ".".

(** The loop over the content of a string literal (token.c:108-116); the
    state is [(i, string_chars)]. *)
Definition quote_cond (text : string) (len : Z) (quote : ascii) (s : Z * Z)
  : result bool :=
  let '(i, _) := s in
  if i <? len then c <- load text i ;; Ok (negb (Ascii.eqb c quote))
  else Ok false.

Definition quote_body (text : string) (len : Z) (s : Z * Z) : result (Z * Z) :=
  let '(i, string_chars) := s in
  c <- load text i ;;
  if Ascii.eqb c "\" && (int_add i 1 <? len) then
    Ok (int_add i 2, int_add string_chars 2)
  else
    Ok (int_add i 1, int_add string_chars 1).

(** After that loop (token.c:118-124): the tokens of the content, and the
    closing quote when the loop stopped before the end of the text. *)
Definition quote_finish (len : Z) (stats : TokenStats) (s : Z * Z)
  : Z * TokenStats :=
  let '(i, string_chars) := s in
  let stats := add_tokens (int_div (int_add string_chars 3) 4) stats in
  if i <? len then (int_add i 1, add_tokens 1 stats)
  else (i, stats).

(** One iteration of the main loop of [estimate_tokens] (token.c:50-131);
    the state is [(i, stats)]. *)
Definition scan_body (fuel : nat) (text : string) (len : Z)
           (s : Z * TokenStats) : result (Z * TokenStats) :=
  let '(i, stats) := s in
  c <- load text i ;;
  if isspace c then
    i <- while (run_cond isspace text len) run_body fuel i ;;
    Ok (i, stats)
  else
    pattern_len <- is_code_pattern text i len ;;
    if pattern_len >? 0 then
      Ok (int_add i pattern_len, add_tokens 1 stats)
    else if isalpha c then
      let word_start := i in
      i <- while (run_cond is_word_char text len) run_body fuel i ;;
      let word_len := int_sub i word_start in
      let stats := add_word stats in
      if word_len <=? 4 then Ok (i, add_tokens 1 stats)
      else if word_len <=? 8 then Ok (i, add_tokens 2 stats)
      else Ok (i, add_tokens (int_div (int_add word_len 3) 4) stats)
    else if isdigit c then
      i <- while (run_cond is_number_char text len) run_body fuel i ;;
      Ok (i, add_tokens 1 stats)
    else if is_quote c then
      let quote := c in
      let i := int_add i 1 in
      let stats := add_tokens 1 stats in
      s <- while (quote_cond text len quote)
                 (quote_body text len) fuel (i, 0) ;;
      Ok (quote_finish len stats s)
    else
      Ok (int_add i 1, add_tokens 1 stats).

Definition scan_cond (len : Z) (s : Z * TokenStats) : result bool :=
  Ok (fst s <? len).

Definition scan_init (len : Z) : Z * TokenStats := (0, mkStats 0 0 len).

Definition estimate_tokens (fuel : nat) (text : string) : result TokenStats :=
  let len := wrap_int (Z.of_nat (strlen text)) in
  s <- while (scan_cond len) (scan_body fuel text len) fuel (scan_init len) ;;
  Ok (snd s).

(** *** Single-precision arithmetic of [estimate_tokens_advanced] *)

Definition float32 : Type := spec_float.

(* (float) of an int: the nearest binary32 value, ties to even. *)
Definition float_of_int (z : Z) : float32 := binary_normalize 24 128 z 0 false.

(* A product of two floats, evaluated in the precision of the type
   (FLT_EVAL_METHOD 0, as with SSE or AArch64 arithmetic). *)
Definition float_mul (x y : float32) : float32 := SFmul 24 128 x y.

(* The literals 1.0, 1.2 and 0.85 after their conversion to float:
   0x3F800000, 0x3F99999A and 0x3F59999A. *)
Definition float_1_0 : float32 := S754_finite false 8388608 (-23).
Definition float_1_2 : float32 := S754_finite false 10066330 (-23).
Definition float_0_85 : float32 := S754_finite false 14260634 (-24).

(* A decimal literal num/den of type double, and its conversion to float. *)
Definition double_literal (num den : Z) : spec_float :=
  SFdiv 53 1024 (binary_normalize 53 1024 num 0 false)
                (binary_normalize 53 1024 den 0 false).

Definition float_of_double (d : spec_float) : float32 :=
  match d with
  | S754_finite s m e => binary_round 24 128 s m e
  | _ => d
  end.

(* The magnitude of a finite float, rounded toward zero. *)
Definition float_trunc_abs (m : positive) (e : Z) : Z :=
  if 0 <=? e then Z.pos m * 2 ^ e else Z.pos m / 2 ^ (- e).

(* (int) of a float: truncation toward zero.  A value that does not fit in
   an int has no defined conversion in C; the model gives INT_MIN for it,
   as the cvttss2si instruction does. *)
Definition int_of_float (f : float32) : Z :=
  match f with
  | S754_zero _ => 0
  | S754_finite s m e =>
      let v := if s then - float_trunc_abs m e else float_trunc_abs m e in
      if (INT_MIN <=? v) && (v <=? INT_MAX) then v else INT_MIN
  | _ => INT_MIN
  end.

(** *** estimate_tokens_advanced *)

Definition is_indicator (c : ascii) : bool :=
  Ascii.eqb c "{" || Ascii.eqb c "}" || Ascii.eqb c ";" ||
  Ascii.eqb c "(" || Ascii.eqb c ")" || Ascii.eqb c "[" ||
  Ascii.eqb c "]".

(* The [for] loop of token.c:148-155; the state is [(i, code_indicators)]. *)
Definition indicator_cond (text_len : Z) (s : Z * Z) : result bool :=
  Ok (fst s <? int_sub text_len 1).

Definition indicator_body (text : string) (s : Z * Z) : result (Z * Z) :=
  let '(i, code_indicators) := s in
  c <- load text i ;;
  hit <- (if is_indicator c then
            if i =? 0 then Ok true
            else p <- load text (int_sub i 1) ;; Ok (negb (isalpha p))
          else Ok false) ;;
  Ok (int_add i 1,
      if hit : bool then int_add code_indicators 1 else code_indicators).

(* The two assignments of token.c:158-165, in their order. *)
Definition select_multiplier (code_indicators words : Z) : float32 :=
  let multiplier := float_1_0 in
  let multiplier :=
    if code_indicators >? int_div words 10 then float_1_2 else multiplier in
  let multiplier :=
    if (code_indicators <? int_div words 20) && (words >? 10)
    then float_0_85 else multiplier in
  multiplier.

Definition estimate_tokens_advanced (fuel : nat) (text : string) : result Z :=
  basic <- estimate_tokens fuel text ;;
  let text_len := wrap_int (Z.of_nat (strlen text)) in
  s <- while (indicator_cond text_len) (indicator_body text) fuel (0, 0) ;;
  let code_indicators := snd s in
  let multiplier := select_multiplier code_indicators (words basic) in
  Ok (int_of_float (float_mul (float_of_int (tokens basic)) multiplier)).

(** *** quick_token_estimate *)

(* The [for] loop of token.c:179-181; the state is [(i, punct_count)]. *)
Definition punct_cond (len : Z) (s : Z * Z) : result bool :=
  Ok (fst s <? len).

Definition punct_body (text : string) (s : Z * Z) : result (Z * Z) :=
  let '(i, punct_count) := s in
  c <- load text i ;;
  Ok (int_add i 1, if ispunct c then int_add punct_count 1 else punct_count).

Definition quick_token_estimate (fuel : nat) (text : string) : result Z :=
  let len := wrap_int (Z.of_nat (strlen text)) in
  if len =? 0 then Ok 0
  else
    s <- while (punct_cond len) (punct_body text) fuel (0, 0) ;;
    let punct_count := snd s in
    if punct_count >? int_div len 20 then Ok (int_div (int_add len 2) 3)
    else Ok (int_div (int_add len 3) 4).

(** *** print_stats

    The standard output is the list of the items written, in order: the
    literal segments of the format strings and the values of their
    directives, a number being left as the value that [printf] renders. *)

Definition NL : ascii := "010"%char.

Inductive out_item : Type :=
| OutText (s : string)      (* literal text, and the %s directives *)
| OutInt (z : Z)            (* %d *)
| OutFloat (f : float32).   (* %.2f; the float is passed as a double *)

(* A quotient of two floats, evaluated in the precision of the type. *)
Definition float_div (x y : float32) : float32 := SFdiv 24 128 x y.

(* The seven printf calls of token.c:197-203. *)
Definition stats_items (label text : string) (stats : TokenStats) (quick : Z)
  : list out_item :=
  [ OutText (String NL "=== "); OutText label;
    OutText (" ===" ++ String NL "")%string;
    OutText "Text             : ";
    OutText (string_of_list_ascii (firstn 60 (cstr_chars text)));
    OutText (if (60 <? strlen text)%nat then "..." else "");
    OutText (String NL "");
    OutText "Characters       : "; OutInt (chars stats); OutText (String NL "");
    OutText "Words            : "; OutInt (words stats); OutText (String NL "");
    OutText "Estimated Tokens : "; OutInt (tokens stats);
    OutText (String NL "");
    OutText "Guessed Tokens   : "; OutInt quick; OutText (String NL "");
    OutText "Ratio (c/t)      : ";
    OutFloat (float_div (float_of_int (chars stats))
                        (float_of_int (tokens stats)));
    OutText (String NL "") ].

Definition print_stats (fuel : nat) (label text : string)
  : result (list out_item) :=
  stats <- estimate_tokens fuel text ;;
  advanced <- estimate_tokens_advanced fuel text ;;
  quick <- quick_token_estimate fuel text ;;
  Ok (stats_items label text stats quick).

(** *** main *)

Definition samples : list string :=
  [ "Hello world! This is a simple test sentence.";
    ("int main() { printf(" ++
     String DQUOTE ("Hello\n" ++ String DQUOTE "); return 0; }"))%string;
    "The quick brown fox jumps over the lazy dog. This is a longer sentence with more complex vocabulary and sophisticated linguistic structures.";
    ("function calculateFactorial(n) {" ++
     String NL ("  if (n <= 1) return 1;" ++
     String NL ("  return n * calculateFactorial(n - 1);" ++
     String NL "}")))%string;
    ("import numpy as np" ++
     String NL ("from sklearn.model_selection import train_test_split" ++
     String NL "X_train, X_test = train_test_split(data, test_size=0.2)"))%string;
    "Lorem ipsum dolor sit amet, consectetur adipiscing elit, sed do eiusmod tempor incididunt ut labore et dolore magna aliqua." ].

Definition labels : list string :=
  [ "Simple English"; "C Code"; "Complex English"; "JavaScript Code";
    "Python Code"; "Latin Text" ].

(* The printf calls of token.c:234-238. *)
Definition banner : list out_item :=
  [ OutText ("Token Count Estimator" ++ String NL "")%string;
    OutText ("=====================" ++ String NL "")%string;
    OutText ("c/t = characters to token." ++
             String NL ("cpt = characters per token." ++ String NL ""))%string;
    OutText ("Estimated: Factors basic code patterns only, educated guess."
             ++ String NL "")%string;
    OutText ("Guessed: Goes only by ~4cpt for text, ~3cpt for code."
             ++ String NL "")%string ].

(* The [for] loop of token.c:240-242, over the labels and samples paired by
   index. *)
Fixpoint print_samples (fuel : nat) (l : list (string * string))
  : result (list out_item) :=
  match l with
  | [] => Ok []
  | (label, text) :: rest =>
      o <- print_stats fuel label text ;;
      o' <- print_samples fuel rest ;;
      Ok (o ++ o')
  end.

(** <stdio.h>: the standard input is the list of the bytes still to be
    read.  [fgets] with a buffer of [size] bytes reads at most [size - 1]
    bytes and stops after a newline; it returns no buffer (NULL) when the
    input is at its end. *)
Fixpoint fgets_chars (n : nat) (stdin : list ascii)
  : list ascii * list ascii :=
  match n, stdin with
  | O, _ => ([], stdin)
  | _, [] => ([], [])
  | S n', c :: rest =>
      if Ascii.eqb c NL then ([c], rest)
      else let '(l, rest') := fgets_chars n' rest in (c :: l, rest')
  end.

Definition fgets (size : nat) (stdin : list ascii)
  : option (string * list ascii) :=
  match stdin with
  | [] => None
  | _ :: _ =>
      let '(l, rest) := fgets_chars (size - 1) stdin in
      Some (string_of_list_ascii l, rest)
  end.

(** <string.h>: [strcspn s reject] is the length of the longest prefix of
    [s] without a character of [reject]; [strcmp] is 0 for equal strings and
    the difference of the first two bytes that differ otherwise. *)
Fixpoint span_without (reject l : list ascii) : nat :=
  match l with
  | [] => O
  | c :: rest =>
      if existsb (Ascii.eqb c) reject then O else S (span_without reject rest)
  end.

Definition strcspn (s reject : string) : nat :=
  span_without (cstr_chars reject) (cstr_chars s).

Fixpoint strcmp_chars (a b : list ascii) : Z :=
  match a, b with
  | [], [] => 0
  | [], y :: _ => 0 - code y
  | x :: _, [] => code x
  | x :: a', y :: b' =>
      if Ascii.eqb x y then strcmp_chars a' b' else code x - code y
  end.

Definition strcmp (s1 s2 : string) : Z :=
  strcmp_chars (cstr_chars s1) (cstr_chars s2).

(** [buf[k] = 0] on a buffer: position [k] of the string becomes NUL; the
    position after the last character is the terminator, which stays. *)
Fixpoint store_nul (buf : string) (k : nat) : string :=
  match buf, k with
  | EmptyString, _ => EmptyString
  | String _ rest, O => String NUL rest
  | String c rest, S k' => String c (store_nul rest k')
  end.

(** The loop [while (1)] of token.c:248-259; the state is the standard
    input, the standard output and a flag that a [break] clears. *)
Definition main_cond (s : list ascii * list out_item * bool) : result bool :=
  Ok (snd s).

Definition main_body (fuel : nat) (s : list ascii * list out_item * bool)
  : result (list ascii * list out_item * bool) :=
  let '(stdin, out, _) := s in
  let out := out ++ [OutText (String NL "> ")] in
  match fgets 4096 stdin with
  | None => Ok (stdin, out, false)
  | Some (input, stdin) =>
      let input := store_nul input (strcspn input (String NL "")) in
      if strcmp input "quit" =? 0 then Ok (stdin, out, false)
      else if (strlen input =? 0)%nat then Ok (stdin, out, true)
      else
        o <- print_stats fuel "User Input" input ;;
        Ok (stdin, out ++ o, true)
  end.

(** [main]: the exit status and everything written to the standard
    output. *)
Definition main (fuel : nat) (stdin : list ascii)
  : result (Z * list out_item) :=
  let out := banner in
  o <- print_samples fuel (combine labels samples) ;;
  let out :=
    out ++ o ++
    [OutText (String NL (String NL
        ("Enter text to analyze (or 'quit' to exit):" ++ String NL "")))] in
  s <- while main_cond (main_body fuel) fuel (stdin, out, true) ;;
  Ok (0, snd (fst s)).

(** * Specification

    The notions the properties below are stated with. *)

(** A text whose length leaves room for the largest constant the code adds
    to a length or an index ([+ 3]) within an [int]. *)
Definition fits_int (text : string) : Prop :=
  Z.of_nat (strlen text) + 3 <= INT_MAX.

(** [j] ends the maximal run of characters satisfying [p] that starts at [i]:
    every position of [i, j) satisfies [p], and [j] is the end of the text or
    a position that does not. *)
Definition maximal_run (p : ascii -> bool) (text : string) (i j : Z) : Prop :=
  i <= j <= Z.of_nat (strlen text) /\
  (forall k, i <= k < j -> p (char_at text k) = true) /\
  (j < Z.of_nat (strlen text) -> p (char_at text j) = false).

(** [starts_with p l]: the characters [p] are a prefix of [l]. *)
Fixpoint starts_with (p l : list ascii) : bool :=
  match p, l with
  | [], _ => true
  | a :: p', b :: l' => Ascii.eqb a b && starts_with p' l'
  | _ :: _, [] => false
  end.

(** The literal text of the entry [p] matches [text] at position [pos]. *)
Definition matches_at (text : string) (pos : Z) (p : string) : bool :=
  starts_with (cstr_chars p) (skipn (Z.to_nat pos) (cstr_chars text)).

(** The length of the first entry of [pats] that matches, 0 without one. *)
Fixpoint first_match (pats : list string) (text : string) (pos : Z) : Z :=
  match pats with
  | [] => 0
  | p :: rest =>
      if matches_at text pos p then Z.of_nat (strlen p)
      else first_match rest text pos
  end.

(** Some table entry starts with the character [c]. *)
Definition pattern_head (c : ascii) : bool :=
  existsb (fun p => match cstr_chars p with
                    | a :: _ => Ascii.eqb a c
                    | [] => true
                    end) patterns.

(** The token contribution of a word of [n] characters (token.c:82-89). *)
Definition word_tokens (n : Z) : Z :=
  if n <=? 4 then 1 else if n <=? 8 then 2 else (n + 3) / 4.

(** The scan of the content of a string literal as the design document words
    it, over the characters that follow the opening quote: the result is the
    number of positions consumed before the closing quote or the end of the
    input, the string character count, and whether a closing quote was
    found.  A backslash followed by a character is one escaped unit of two
    positions counting 2; any other character is one position counting 1. *)
Fixpoint spec_quoted_scan (quote : ascii) (l : list ascii) : Z * Z * bool :=
  match l with
  | [] => (0, 0, false)
  | c :: r =>
      if Ascii.eqb c quote then (0, 0, true)
      else
        match r with
        | _ :: r' =>
            if Ascii.eqb c "\" then
              let '(n, k, closed) := spec_quoted_scan quote r' in
              (2 + n, 2 + k, closed)
            else
              let '(n, k, closed) := spec_quoted_scan quote r in
              (1 + n, 1 + k, closed)
        | [] => (1, 1, false)
        end
  end.

(** The invariant of the main loop: the position is within the text, the
    counters are non-negative and bounded by the position, and [chars] is
    the length. *)
Definition scan_inv (text : string) (s : Z * TokenStats) : Prop :=
  0 <= fst s <= Z.of_nat (strlen text) /\
  0 <= tokens (snd s) <= fst s /\
  0 <= words (snd s) <= fst s /\
  chars (snd s) = Z.of_nat (strlen text).

(** The states the main loop of [estimate_tokens fuel text] goes through. *)
Inductive scan_reaches (fuel : nat) (text : string)
  : Z * TokenStats -> Prop :=
| reaches_init :
    scan_reaches fuel text (scan_init (wrap_int (Z.of_nat (strlen text))))
| reaches_step (s s' : Z * TokenStats) :
    scan_reaches fuel text s ->
    scan_cond (wrap_int (Z.of_nat (strlen text))) s = Ok true ->
    scan_body fuel text (wrap_int (Z.of_nat (strlen text))) s = Ok s' ->
    scan_reaches fuel text s'.

(** The number of punctuation characters of the whole text. *)
Definition punct_count (text : string) : Z :=
  Z.of_nat (List.length (filter ispunct (cstr_chars text))).

(** Position [k] holds one of the characters [{ } ; ( ) [ ]] and is not
    immediately preceded by an alphabetic letter. *)
Definition indicator_at (text : string) (k : nat) : bool :=
  is_indicator (char_at text (Z.of_nat k)) &&
  ((k =? 0)%nat || negb (isalpha (char_at text (Z.of_nat k - 1)))).

(** The count over the positions 0 to length - 2: the last character is not
    examined. *)
Definition spec_code_indicators (text : string) : Z :=
  Z.of_nat (List.length (filter (indicator_at text)
                                (seq 0 (strlen text - 1)))).

(** The multiplier after the two assignments: 0.85 when the second condition
    holds, whatever the first one did; otherwise 1.2 when the first holds;
    otherwise 1.0. *)
Definition spec_multiplier (code_indicators words : Z) : float32 :=
  if (code_indicators <? words / 20) && (words >? 10) then float_0_85
  else if code_indicators >? words / 10 then float_1_2
  else float_1_0.

(** Texts with double quotes: [dq s] is a double quote followed by [s]. *)
Definition dq (s : string) : string := String DQUOTE s.

(** A text of 100 characters, 10 of them punctuation marks. *)
Definition sample_100 : string :=
  let part := "abcdefghi." in
  (part ++ part ++ part ++ part ++ part ++
   part ++ part ++ part ++ part ++ part)%string.

(** A line of code: 3 words, 10 tokens, 3 code indicators. *)
Definition sample_code : string := "int main() { return 0; }".

(** A sentence of 22 words without a code indicator. *)
Definition sample_prose : string :=
  "the quick brown fox jumps over the lazy dog and runs far away from the big bad wolf in the dark woods".

(** The text holds whitespace only (the empty text too). *)
Definition is_blank (text : string) : bool :=
  forallb isspace (cstr_chars text).

(** [first_match] on the characters from the position on. *)
Fixpoint first_match_chars (pats : list string) (l : list ascii) : Z :=
  match pats with
  | [] => 0
  | p :: rest =>
      if starts_with (cstr_chars p) l then Z.of_nat (strlen p)
      else first_match_chars rest l
  end.

(** * Verification *)

(** ** Machine integers *)

Lemma wrap_int_small (z : Z) : INT_MIN <= z <= INT_MAX -> wrap_int z = z.
Proof.
  unfold INT_MIN, INT_MAX, wrap_int. intros H.
  rewrite Z.mod_small by lia. lia.
Qed.

Lemma int_add_small (a b : Z) :
  INT_MIN <= a + b <= INT_MAX -> int_add a b = a + b.
Proof. apply wrap_int_small. Qed.

Lemma int_sub_small (a b : Z) :
  INT_MIN <= a - b <= INT_MAX -> int_sub a b = a - b.
Proof. apply wrap_int_small. Qed.

Lemma int_div_small (a b : Z) :
  0 <= a <= INT_MAX -> 0 < b -> int_div a b = a / b.
Proof.
  intros Ha Hb. unfold int_div.
  rewrite Z.quot_div_nonneg by lia.
  apply wrap_int_small. unfold INT_MIN.
  split.
  - assert (0 <= a / b) by (apply Z.div_pos; lia). lia.
  - assert (a / b <= a) by (apply Z.div_le_upper_bound; nia). lia.
Qed.

(** ** The loop combinator *)

(** Total correctness of a loop from an invariant [I] and a variant [m]:
    with more fuel than the variant, the loop ends in a state where the
    invariant holds and the condition is false. *)
Lemma while_total {S : Type} (cond : S -> result bool)
      (body : S -> result S) (I : S -> Prop) (m : S -> nat) :
  (forall s, I s ->
     exists b, cond s = Ok b /\
       (b = true -> exists s', body s = Ok s' /\ I s' /\ (m s' < m s)%nat)) ->
  forall fuel s, I s -> (m s < fuel)%nat ->
    exists s', while cond body fuel s = Ok s' /\ I s' /\ cond s' = Ok false.
Proof.
  intros Hstep fuel. induction fuel as [|fuel IH]; intros s Hs Hm.
  - lia.
  - destruct (Hstep s Hs) as [b [Hc Hb]]. simpl. rewrite Hc. simpl.
    destruct b.
    + destruct (Hb eq_refl) as [s' [Hbody [Hs' Hlt]]].
      rewrite Hbody. simpl. apply IH; [assumption | lia].
    + exists s. auto.
Qed.

(** The result of a loop does not depend on the fuel, once there is enough. *)
Lemma while_fuel_mono {S : Type} (cond : S -> result bool)
      (body : S -> result S) (fuel : nat) :
  forall s r, while cond body fuel s = Ok r ->
    forall fuel', (fuel <= fuel')%nat -> while cond body fuel' s = Ok r.
Proof.
  induction fuel as [|fuel IH]; intros s r H fuel' Hle.
  - discriminate.
  - destruct fuel' as [|fuel']; [lia|].
    simpl in *. destruct (cond s) as [b|e]; [|discriminate]. simpl in *.
    destruct b; [|assumption].
    destruct (body s) as [s'|e]; [|discriminate]. simpl in *.
    apply IH with (fuel' := fuel') in H; [assumption | lia].
Qed.

(** ** C strings *)

Lemma cstr_chars_not_nul (s : string) : ~ In NUL (cstr_chars s).
Proof.
  induction s as [|c r IH]; simpl.
  - tauto.
  - destruct (Ascii.eqb c NUL) eqn:E; simpl.
    + tauto.
    + intros [H|H]; [|tauto]. subst c. rewrite Ascii.eqb_refl in E. discriminate.
Qed.

Lemma char_at_end (s : string) : char_at s (Z.of_nat (strlen s)) = NUL.
Proof.
  unfold char_at, strlen. rewrite Nat2Z.id. apply nth_overflow. lia.
Qed.

Lemma char_at_in (s : string) (i : Z) :
  0 <= i < Z.of_nat (strlen s) -> In (char_at s i) (cstr_chars s).
Proof.
  intros H. unfold char_at. apply nth_In. unfold strlen in H. lia.
Qed.

Lemma char_at_not_nul (s : string) (i : Z) :
  0 <= i < Z.of_nat (strlen s) -> char_at s i <> NUL.
Proof.
  intros H E. apply (cstr_chars_not_nul s). rewrite <- E. now apply char_at_in.
Qed.

Lemma load_ok (s : string) (i : Z) :
  0 <= i <= Z.of_nat (strlen s) -> load s i = Ok (char_at s i).
Proof.
  intros H. unfold load.
  replace (0 <=? i) with true by (symmetry; apply Z.leb_le; lia).
  replace (i <=? Z.of_nat (strlen s)) with true by (symmetry; apply Z.leb_le; lia).
  reflexivity.
Qed.

Lemma skipn_char_at (s : string) (i : Z) :
  0 <= i < Z.of_nat (strlen s) ->
  skipn (Z.to_nat i) (cstr_chars s)
  = char_at s i :: skipn (Z.to_nat (i + 1)) (cstr_chars s).
Proof.
  intros H. unfold char_at, strlen in *.
  replace (Z.to_nat (i + 1)) with (S (Z.to_nat i)) by lia.
  assert (Hlt : (Z.to_nat i < List.length (cstr_chars s))%nat) by lia.
  revert Hlt. generalize (Z.to_nat i) as n. generalize (cstr_chars s) as l.
  induction l as [|a l IH]; intros n Hn; simpl in *.
  - lia.
  - destruct n as [|n]; [reflexivity|]. apply IH. lia.
Qed.

Lemma firstn_char_at (s : string) (i : Z) :
  0 <= i < Z.of_nat (strlen s) ->
  firstn (Z.to_nat (i + 1)) (cstr_chars s)
  = firstn (Z.to_nat i) (cstr_chars s) ++ [char_at s i].
Proof.
  intros H. unfold char_at, strlen in *.
  replace (Z.to_nat (i + 1)) with (S (Z.to_nat i)) by lia.
  assert (Hlt : (Z.to_nat i < List.length (cstr_chars s))%nat) by lia.
  revert Hlt. generalize (Z.to_nat i) as n. generalize (cstr_chars s) as l.
  induction l as [|a l IH]; intros n Hn; simpl in *.
  - lia.
  - destruct n as [|n]; [reflexivity|]. simpl. f_equal. apply IH. lia.
Qed.

Lemma fits_int_len (text : string) :
  fits_int text -> wrap_int (Z.of_nat (strlen text)) = Z.of_nat (strlen text).
Proof.
  unfold fits_int, INT_MAX. intros H. apply wrap_int_small.
  unfold INT_MIN, INT_MAX. lia.
Qed.

(** ** Character classes *)

Lemma code_inj (a b : ascii) : code a = code b -> a = b.
Proof.
  unfold code. intros H. apply N2Z.inj in H.
  rewrite <- (ascii_N_embedding a), <- (ascii_N_embedding b). now rewrite H.
Qed.

Lemma isalpha_not_space (c : ascii) : isalpha c = true -> isspace c = false.
Proof.
  unfold isalpha, isupper, islower, isspace. intros H.
  destruct (code c =? 32) eqn:E1; [apply Z.eqb_eq in E1; rewrite E1 in H; discriminate|].
  destruct ((9 <=? code c) && (code c <=? 13)) eqn:E2; [|reflexivity].
  apply andb_true_iff in E2. destruct E2 as [A B].
  apply Z.leb_le in A, B.
  apply orb_true_iff in H. destruct H as [H|H];
    apply andb_true_iff in H; destruct H as [C D];
    apply Z.leb_le in C, D; lia.
Qed.

Lemma isalpha_word_char (c : ascii) : isalpha c = true -> is_word_char c = true.
Proof.
  unfold is_word_char, isalnum. intros H. now rewrite H.
Qed.

Lemma isdigit_number_char (c : ascii) :
  isdigit c = true -> is_number_char c = true.
Proof.
  unfold is_number_char. intros H. now rewrite H.
Qed.

(** ** Runs of characters *)

Lemma maximal_run_unique (p : ascii -> bool) (text : string) (i j j' : Z) :
  maximal_run p text i j -> maximal_run p text i j' -> j = j'.
Proof.
  intros [B [In Out]] [B' [In' Out']].
  destruct (Z.lt_trichotomy j j') as [L|[E|L]]; [|assumption|].
  - assert (H : p (char_at text j) = true) by (apply In'; lia).
    rewrite Out in H by lia. discriminate.
  - assert (H : p (char_at text j') = true) by (apply In; lia).
    rewrite Out' in H by lia. discriminate.
Qed.

Lemma maximal_run_nonempty (p : ascii -> bool) (text : string) (i j : Z) :
  maximal_run p text i j -> i < Z.of_nat (strlen text) ->
  p (char_at text i) = true -> i < j.
Proof.
  intros [B [In Out]] Hi Hp.
  destruct (Z.eq_dec i j) as [E|NE]; [|lia].
  subst j. rewrite Out in Hp by assumption. discriminate.
Qed.

Section Scan.

Variable text : string.
Hypothesis Hfit : fits_int text.

Local Abbreviation len := (Z.of_nat (strlen text)).

(** The loops [while (i < len && p(text[i])) i++] stop at the end of the
    maximal run. *)
Lemma run_loop_spec (p : ascii -> bool) (fuel : nat) (i : Z) :
  0 <= i <= len -> (Z.to_nat (len - i) < fuel)%nat ->
  exists j, while (run_cond p text len) run_body fuel i = Ok j /\
            maximal_run p text i j.
Proof.
  intros Hi Hfuel.
  destruct (while_total (run_cond p text len) run_body
              (fun j => i <= j <= len /\
                        forall k, i <= k < j -> p (char_at text k) = true)
              (fun j => Z.to_nat (len - j))) with (fuel := fuel) (s := i)
    as [j [Hrun [[Hb Hin] Hc]]].
  - intros j [Hj Hin]. unfold run_cond, run_body.
    destruct (j <? len) eqn:E.
    + apply Z.ltb_lt in E. rewrite load_ok by lia. simpl.
      eexists; split; [reflexivity|]. intros Hp.
      eexists; split; [reflexivity|].
      unfold fits_int, INT_MAX in Hfit.
      rewrite int_add_small by (unfold INT_MIN, INT_MAX; lia).
      repeat split; try lia.
      intros k Hk. destruct (Z.eq_dec k j) as [->|NE]; [assumption|].
      apply Hin. lia.
    + exists false. split; [reflexivity|]. discriminate.
  - split; [lia|]. intros k Hk. lia.
  - assumption.
  - exists j. split; [assumption|]. repeat split; try lia; try assumption.
    intros Hlt. unfold run_cond in Hc.
    apply Z.ltb_lt in Hlt. rewrite Hlt in Hc.
    apply Z.ltb_lt in Hlt. rewrite load_ok in Hc by lia. simpl in Hc.
    now injection Hc.
Qed.

End Scan.

(** ** The pattern table *)

Lemma starts_with_length (p l : list ascii) :
  starts_with p l = true -> (List.length p <= List.length l)%nat.
Proof.
  revert l. induction p as [|a p IH]; intros l H; simpl in *.
  - lia.
  - destruct l as [|b l]; [discriminate|].
    apply andb_true_iff in H. destruct H as [_ H].
    apply IH in H. simpl. lia.
Qed.

Lemma starts_with_app (p l : list ascii) :
  starts_with p l = true <-> exists post, l = p ++ post.
Proof.
  revert l. induction p as [|a p IH]; intros l; simpl.
  - split; [intros _; now exists l | reflexivity].
  - destruct l as [|b l].
    + split; [discriminate | intros [post H]; discriminate].
    + rewrite andb_true_iff, IH. split.
      * intros [E [post ->]]. apply Ascii.eqb_eq in E. subst. now exists post.
      * intros [post E]. injection E as -> ->.
        split; [apply Ascii.eqb_refl | now exists post].
Qed.

Lemma skipn_length_Z (text : string) (pos : Z) :
  0 <= pos <= Z.of_nat (strlen text) ->
  Z.of_nat (List.length (skipn (Z.to_nat pos) (cstr_chars text)))
  = Z.of_nat (strlen text) - pos.
Proof.
  intros H. rewrite length_skipn. unfold strlen in *. lia.
Qed.

(** [strncmp] on [n] bytes that both strings have answers 0 exactly when
    the two segments are equal. *)
Lemma strncmp_spec (n : nat) :
  forall (s1 : string) (p1 : Z) (s2 : string) (p2 : Z),
    0 <= p1 -> 0 <= p2 ->
    p1 + Z.of_nat n <= Z.of_nat (strlen s1) ->
    p2 + Z.of_nat n <= Z.of_nat (strlen s2) ->
    exists r, strncmp s1 p1 s2 p2 n = Ok r /\
      (r =? 0) = starts_with (firstn n (skipn (Z.to_nat p2) (cstr_chars s2)))
                             (skipn (Z.to_nat p1) (cstr_chars s1)).
Proof.
  induction n as [|n IH]; intros s1 p1 s2 p2 H1 H2 B1 B2.
  - exists 0. split; reflexivity.
  - cbn [strncmp].
    rewrite !load_ok by lia. cbn [bind].
    rewrite (skipn_char_at s1 p1), (skipn_char_at s2 p2) by lia.
    cbn [firstn starts_with].
    destruct (Ascii.eqb (char_at s1 p1) (char_at s2 p2)) eqn:E.
    + apply Ascii.eqb_eq in E. rewrite <- E, Ascii.eqb_refl. cbn [negb andb].
      assert (N : Ascii.eqb (char_at s1 p1) NUL = false).
      { apply Ascii.eqb_neq. apply char_at_not_nul. lia. }
      rewrite N. apply IH; lia.
    + rewrite Ascii.eqb_sym in E. rewrite E. cbn [negb andb].
      eexists. split; [reflexivity|].
      apply Z.eqb_neq. intros C.
      assert (C' : code (char_at s1 p1) = code (char_at s2 p2)) by lia.
      apply code_inj in C'. rewrite C', Ascii.eqb_refl in E. discriminate.
Qed.

(** [is_code_pattern] returns the length of the first entry, in table order,
    whose text matches at [pos]. *)
Lemma is_code_pattern_from_spec (text : string) (pos : Z) (pats : list string) :
  fits_int text ->
  0 <= pos <= Z.of_nat (strlen text) ->
  Forall (fun p => (strlen p <= 3)%nat) pats ->
  is_code_pattern_from pats text pos (Z.of_nat (strlen text))
  = Ok (first_match pats text pos).
Proof.
  intros Hfit Hpos. unfold fits_int, INT_MAX in Hfit.
  induction pats as [|p rest IH]; intros Hall.
  - reflexivity.
  - inversion Hall as [|p' rest' Hp Hrest]; subst.
    cbn [is_code_pattern_from first_match].
    rewrite wrap_int_small by (unfold INT_MIN, INT_MAX; lia).
    rewrite int_add_small by (unfold INT_MIN, INT_MAX; lia).
    rewrite Nat2Z.id.
    destruct (pos + Z.of_nat (strlen p) <=? Z.of_nat (strlen text)) eqn:E.
    + apply Z.leb_le in E.
      destruct (strncmp_spec (strlen p) text pos p 0) as [r [Hr Hz]]; try lia.
      rewrite Hr. cbn [bind].
      change (Z.to_nat 0) with 0%nat in Hz. cbn [skipn] in Hz.
      unfold strlen in Hz at 1. rewrite firstn_all in Hz.
      unfold matches_at. rewrite <- Hz.
      destruct (r =? 0); [reflexivity | now apply IH].
    + apply Z.leb_gt in E.
      assert (M : matches_at text pos p = false).
      { unfold matches_at.
        destruct (starts_with _ _) eqn:S; [|reflexivity].
        apply starts_with_length in S.
        apply Nat2Z.inj_le in S. rewrite skipn_length_Z in S by lia.
        fold (strlen p) in S. lia. }
      rewrite M. now apply IH.
Qed.

Lemma patterns_short : Forall (fun p => (strlen p <= 3)%nat) patterns.
Proof. repeat constructor. Qed.

Lemma is_code_pattern_spec (text : string) (pos : Z) :
  fits_int text ->
  0 <= pos <= Z.of_nat (strlen text) ->
  is_code_pattern text pos (Z.of_nat (strlen text))
  = Ok (first_match patterns text pos).
Proof.
  intros Hfit Hpos. apply is_code_pattern_from_spec; auto using patterns_short.
Qed.

(** A match is the length of a table entry that fits in the text. *)
Lemma first_match_bounds (text : string) (pos : Z) (pats : list string) :
  0 <= pos <= Z.of_nat (strlen text) ->
  Forall (fun p => (strlen p <= 3)%nat) pats ->
  0 <= first_match pats text pos <= 3 /\
  pos + first_match pats text pos <= Z.of_nat (strlen text).
Proof.
  intros Hpos. induction pats as [|p rest IH]; intros Hall; cbn [first_match].
  - lia.
  - inversion Hall as [|p' rest' Hp Hrest]; subst.
    destruct (matches_at text pos p) eqn:M; [|now apply IH].
    unfold matches_at in M. apply starts_with_length in M.
    apply Nat2Z.inj_le in M. rewrite skipn_length_Z in M by lia.
    fold (strlen p) in M. lia.
Qed.

(** ** String literals *)

Section Quote.

Variable text : string.
Hypothesis Hfit : fits_int text.
Variable quote : ascii.

Local Abbreviation len := (Z.of_nat (strlen text)).

Lemma skipn_end : skipn (Z.to_nat len) (cstr_chars text) = [].
Proof. rewrite Nat2Z.id. apply skipn_all. Qed.

(** The loop of token.c:108-116 computes [spec_quoted_scan] on the rest of
    the text; it stops at the closing quote or at the end of the text. *)
Lemma quote_loop_spec (fuel : nat) :
  forall (i sc : Z),
    0 <= i <= len -> 0 <= sc <= i -> (Z.to_nat (len - i) < fuel)%nat ->
    exists n k closed,
      spec_quoted_scan quote (skipn (Z.to_nat i) (cstr_chars text))
      = (n, k, closed) /\
      while (quote_cond text len quote) (quote_body text len) fuel (i, sc)
      = Ok (i + n, sc + k) /\
      0 <= n /\ k = n /\ i + n <= len /\
      (closed = true -> i + n < len /\ char_at text (i + n) = quote) /\
      (closed = false -> i + n = len).
Proof.
  unfold fits_int, INT_MAX in Hfit.
  induction fuel as [|fuel IH]; intros i sc Hi Hsc Hfuel; [lia|].
  cbn [while]. unfold quote_cond at 1.
  destruct (i <? len) eqn:E.
  - apply Z.ltb_lt in E. rewrite load_ok by lia. cbn [bind].
    rewrite (skipn_char_at text i) by lia. cbn [spec_quoted_scan].
    destruct (Ascii.eqb (char_at text i) quote) eqn:Q; cbn [negb].
    + exists 0, 0, true. rewrite !Z.add_0_r.
      apply Ascii.eqb_eq in Q.
      repeat split; try lia; try assumption; discriminate.
    + unfold quote_body at 1. rewrite load_ok by lia. cbn [bind].
      rewrite int_add_small by (unfold INT_MIN, INT_MAX; lia).
      destruct (i + 1 <? len) eqn:E1.
      * apply Z.ltb_lt in E1.
        rewrite (skipn_char_at text (i + 1)) by lia.
        destruct (Ascii.eqb (char_at text i) "\") eqn:B; cbn [andb bind].
        -- rewrite !int_add_small by (unfold INT_MIN, INT_MAX; lia).
           destruct (IH (i + 2) (sc + 2)) as [n [k [closed H]]]; try lia.
           destruct H as [Hs [Hw [Hn [Hk [Hb [Hc Ho]]]]]].
           replace (i + 1 + 1) with (i + 2) by lia. rewrite Hs.
           exists (2 + n), (2 + k), closed.
           replace (i + (2 + n)) with (i + 2 + n) by lia.
           replace (sc + (2 + k)) with (sc + 2 + k) by lia.
           clear Hs Hfuel IH.
           destruct closed;
             [destruct (Hc eq_refl) as [Hc1 Hc2] | specialize (Ho eq_refl)];
             repeat split; try lia; try assumption; try discriminate.
        -- rewrite !int_add_small by (unfold INT_MIN, INT_MAX; lia).
           destruct (IH (i + 1) (sc + 1)) as [n [k [closed H]]]; try lia.
           destruct H as [Hs [Hw [Hn [Hk [Hb [Hc Ho]]]]]].
           rewrite (skipn_char_at text (i + 1)) in Hs by lia. rewrite Hs.
           exists (1 + n), (1 + k), closed.
           replace (i + (1 + n)) with (i + 1 + n) by lia.
           replace (sc + (1 + k)) with (sc + 1 + k) by lia.
           clear Hs Hfuel IH.
           destruct closed;
             [destruct (Hc eq_refl) as [Hc1 Hc2] | specialize (Ho eq_refl)];
             repeat split; try lia; try assumption; try discriminate.
      * apply Z.ltb_ge in E1. assert (Ei : i + 1 = len) by lia.
        rewrite andb_false_r. cbn [bind].
        rewrite !int_add_small by (unfold INT_MIN, INT_MAX; lia).
        destruct (IH (i + 1) (sc + 1)) as [n [k [closed H]]]; try lia.
        destruct H as [Hs [Hw [Hn [Hk [Hb [Hc Ho]]]]]].
        rewrite Ei in *. rewrite skipn_end in *. cbn [spec_quoted_scan] in Hs.
        injection Hs as <- <- <-.
        exists 1, 1, false. rewrite !Z.add_0_r in Hw. rewrite Ei.
        repeat split; try lia; try assumption; try discriminate.
  - apply Z.ltb_ge in E. assert (Ei : i = len) by lia.
    cbn [bind]. rewrite Ei, skipn_end. cbn [spec_quoted_scan].
    exists 0, 0, false. rewrite !Z.add_0_r.
    repeat split; try lia; discriminate.
Qed.

End Quote.

(** ** One iteration of the main loop *)

Lemma word_tokens_bounds (n : Z) : 1 <= n -> 1 <= word_tokens n <= n.
Proof.
  intros H. unfold word_tokens.
  destruct (n <=? 4) eqn:E4; [lia|]. apply Z.leb_gt in E4.
  destruct (n <=? 8) eqn:E8; [lia|]. apply Z.leb_gt in E8.
  assert ((n + 3) / 4 <= n) by (apply Z.div_le_upper_bound; lia).
  assert (1 <= (n + 3) / 4) by (apply Z.div_le_lower_bound; lia).
  lia.
Qed.

Section Step.

Variable text : string.
Hypothesis Hfit : fits_int text.
Variable fuel : nat.
Variable i : Z.
Variable stats : TokenStats.

Local Abbreviation len := (Z.of_nat (strlen text)).

Hypothesis Hinv : scan_inv text (i, stats).
Hypothesis Hlt : i < len.
Hypothesis Hfuel : (Z.to_nat (len - i) < fuel)%nat.

Local Ltac bounds :=
  unfold fits_int, INT_MAX, INT_MIN, scan_inv in *; cbn [fst snd] in *; lia.

Local Ltac enter :=
  unfold scan_body; rewrite load_ok by bounds; cbn [bind].

(** Whitespace: the run is skipped and nothing is counted. *)
Lemma scan_body_space :
  isspace (char_at text i) = true ->
  exists j, scan_body fuel text len (i, stats) = Ok (j, stats) /\
            maximal_run isspace text i j /\ i < j.
Proof.
  intros Hc. enter. rewrite Hc.
  destruct (run_loop_spec text Hfit isspace fuel i) as [j [Hrun Hmax]];
    [bounds | assumption |].
  rewrite Hrun. cbn [bind]. exists j. repeat split; try apply Hmax.
  eapply maximal_run_nonempty; eauto.
Qed.

(** A table entry matches: one token, and the scan moves past the entry. *)
Lemma scan_body_pattern :
  isspace (char_at text i) = false ->
  0 < first_match patterns text i ->
  scan_body fuel text len (i, stats)
  = Ok (i + first_match patterns text i,
        mkStats (tokens stats + 1) (words stats) (chars stats)).
Proof.
  intros Hc Hm. enter. rewrite Hc.
  rewrite is_code_pattern_spec by (assumption || bounds). cbn [bind].
  replace (first_match patterns text i >? 0) with true
    by (symmetry; apply Z.gtb_lt; lia).
  pose proof (first_match_bounds text i patterns ltac:(bounds) patterns_short).
  unfold add_tokens. rewrite !int_add_small by bounds. reflexivity.
Qed.

(** A word: the maximal run of word characters, one word, and tokens by the
    length of the run. *)
Lemma scan_body_word :
  isspace (char_at text i) = false ->
  first_match patterns text i = 0 ->
  isalpha (char_at text i) = true ->
  exists j, scan_body fuel text len (i, stats)
            = Ok (j, mkStats (tokens stats + word_tokens (j - i))
                             (words stats + 1) (chars stats)) /\
            maximal_run is_word_char text i j /\ i < j.
Proof.
  intros Hc Hm Ha. enter. rewrite Hc.
  rewrite is_code_pattern_spec by (assumption || bounds). cbn [bind].
  rewrite Hm. change (0 >? 0) with false. cbv iota. rewrite Ha.
  destruct (run_loop_spec text Hfit is_word_char fuel i) as [j [Hrun Hmax]];
    [bounds | assumption |].
  rewrite Hrun. cbn [bind]. exists j.
  assert (Hij : i < j).
  { eapply maximal_run_nonempty; eauto using isalpha_word_char. }
  destruct Hmax as [Hb Hmax'].
  split; [|split; [split; assumption | assumption]].
  rewrite int_sub_small by bounds.
  unfold add_tokens, add_word, word_tokens. cbn [tokens words chars].
  destruct (j - i <=? 4) eqn:E4.
  - rewrite !int_add_small by bounds. reflexivity.
  - destruct (j - i <=? 8) eqn:E8.
    + rewrite !int_add_small by bounds. reflexivity.
    + apply Z.leb_gt in E4, E8.
      rewrite (int_add_small (j - i)) by bounds.
      rewrite int_div_small by bounds.
      assert ((j - i + 3) / 4 <= j - i) by (apply Z.div_le_upper_bound; lia).
      assert (0 <= (j - i + 3) / 4) by (apply Z.div_pos; lia).
      rewrite !int_add_small by bounds. reflexivity.
Qed.

(** A number: the maximal run of digits and dots is one token. *)
Lemma scan_body_number :
  isspace (char_at text i) = false ->
  first_match patterns text i = 0 ->
  isalpha (char_at text i) = false ->
  isdigit (char_at text i) = true ->
  exists j, scan_body fuel text len (i, stats)
            = Ok (j, mkStats (tokens stats + 1) (words stats) (chars stats)) /\
            maximal_run is_number_char text i j /\ i < j.
Proof.
  intros Hc Hm Ha Hd. enter. rewrite Hc.
  rewrite is_code_pattern_spec by (assumption || bounds). cbn [bind].
  rewrite Hm. change (0 >? 0) with false. cbv iota. rewrite Ha, Hd.
  destruct (run_loop_spec text Hfit is_number_char fuel i) as [j [Hrun Hmax]];
    [bounds | assumption |].
  rewrite Hrun. cbn [bind]. exists j.
  assert (Hij : i < j).
  { eapply maximal_run_nonempty; eauto using isdigit_number_char. }
  destruct Hmax as [Hb Hmax'].
  split; [|split; [split; assumption | assumption]].
  unfold add_tokens. rewrite !int_add_small by bounds. reflexivity.
Qed.

(** Any other character that is not a quote: one token, one position. *)
Lemma scan_body_other :
  isspace (char_at text i) = false ->
  first_match patterns text i = 0 ->
  isalpha (char_at text i) = false ->
  isdigit (char_at text i) = false ->
  is_quote (char_at text i) = false ->
  scan_body fuel text len (i, stats)
  = Ok (i + 1, mkStats (tokens stats + 1) (words stats) (chars stats)).
Proof.
  intros Hc Hm Ha Hd Hq. enter. rewrite Hc.
  rewrite is_code_pattern_spec by (assumption || bounds). cbn [bind].
  rewrite Hm. change (0 >? 0) with false. cbv iota. rewrite Ha, Hd, Hq.
  unfold add_tokens. rewrite !int_add_small by bounds. reflexivity.
Qed.

(** A string literal: a token for the opening quote, the content scanned as
    [spec_quoted_scan] says and counted four characters to a token, and a
    token for the closing quote when there is one. *)
Lemma scan_body_quote :
  isspace (char_at text i) = false ->
  first_match patterns text i = 0 ->
  isalpha (char_at text i) = false ->
  isdigit (char_at text i) = false ->
  is_quote (char_at text i) = true ->
  exists n k closed,
    spec_quoted_scan (char_at text i)
                     (skipn (Z.to_nat (i + 1)) (cstr_chars text))
    = (n, k, closed) /\
    scan_body fuel text len (i, stats)
    = Ok (i + 1 + n + (if closed then 1 else 0),
          mkStats (tokens stats + 1 + (k + 3) / 4 + (if closed then 1 else 0))
                  (words stats) (chars stats)) /\
    0 <= n /\ k = n /\
    i + 1 + n + (if closed then 1 else 0) <= len /\
    (closed = true -> char_at text (i + 1 + n) = char_at text i) /\
    (closed = false -> i + 1 + n = len).
Proof.
  intros Hc Hm Ha Hd Hq. enter. rewrite Hc.
  rewrite is_code_pattern_spec by (assumption || bounds). cbn [bind].
  rewrite Hm. change (0 >? 0) with false. cbv iota. rewrite Ha, Hd, Hq.
  rewrite (int_add_small i 1) by bounds.
  destruct (quote_loop_spec text Hfit (char_at text i) fuel (i + 1) 0)
    as [n [k [closed [Hs [Hw [Hn [Hk [Hb [Hcl Hop]]]]]]]]]; try bounds.
  rewrite Hw. cbn [bind]. unfold quote_finish. exists n, k, closed.
  split; [assumption|]. rewrite Z.add_0_l.
  assert (Hdiv : 0 <= (k + 3) / 4 <= k).
  { split; [apply Z.div_pos; lia|].
    destruct (Z.eq_dec k 0) as [->|NZ]; [reflexivity|].
    apply Z.div_le_upper_bound; lia. }
  unfold add_tokens. cbn [tokens words chars].
  rewrite (int_add_small k 3) by bounds.
  rewrite int_div_small by bounds.
  rewrite (int_add_small (tokens stats) 1) by bounds.
  rewrite (int_add_small (tokens stats + 1)) by bounds.
  destruct closed.
  - destruct (Hcl eq_refl) as [Hc1 Hc2].
    replace (i + 1 + n <? len) with true by (symmetry; apply Z.ltb_lt; lia).
    rewrite !int_add_small by bounds.
    repeat split; try lia; try assumption; try discriminate; auto.
  - specialize (Hop eq_refl).
    replace (i + 1 + n <? len) with false by (symmetry; apply Z.ltb_ge; lia).
    rewrite !Z.add_0_r.
    repeat split; try lia; try assumption; try discriminate; auto.
Qed.

End Step.

(** ** The main loop *)

(** Every iteration moves the position forward, keeps the invariant and
    decreases no counter. *)
Lemma scan_body_progress (text : string) (fuel : nat) (s : Z * TokenStats) :
  fits_int text ->
  scan_inv text s ->
  fst s < Z.of_nat (strlen text) ->
  (Z.to_nat (Z.of_nat (strlen text) - fst s) < fuel)%nat ->
  exists s', scan_body fuel text (Z.of_nat (strlen text)) s = Ok s' /\
             scan_inv text s' /\ fst s < fst s' /\
             tokens (snd s) <= tokens (snd s') /\
             words (snd s) <= words (snd s').
Proof.
  intros Hfit Hinv Hlt Hfuel. destruct s as [i stats]. cbn [fst snd] in *.
  assert (Hinv' := Hinv). unfold scan_inv in Hinv'. cbn [fst snd] in Hinv'.
  destruct (isspace (char_at text i)) eqn:Hc.
  { destruct (scan_body_space text Hfit fuel i stats Hinv Hlt Hfuel Hc)
      as [j [Hb [[Hj _] Hij]]].
    exists (j, stats). unfold scan_inv. cbn [fst snd]. repeat split; try lia; auto. }
  pose proof (first_match_bounds text i patterns ltac:(lia) patterns_short)
    as Hfm.
  destruct (Z.eq_dec (first_match patterns text i) 0) as [Hm|Hm].
  2:{ rewrite (scan_body_pattern text Hfit fuel i stats Hinv Hlt Hfuel Hc) by lia.
      eexists; split; [reflexivity|].
      unfold scan_inv. cbn [fst snd tokens words chars].
      repeat split; try lia. }
  destruct (isalpha (char_at text i)) eqn:Ha.
  { destruct (scan_body_word text Hfit fuel i stats Hinv Hlt Hfuel Hc Hm Ha)
      as [j [Hb [[Hj _] Hij]]].
    pose proof (word_tokens_bounds (j - i) ltac:(lia)).
    rewrite Hb. eexists; split; [reflexivity|].
    unfold scan_inv. cbn [fst snd tokens words chars].
    repeat split; try lia. }
  destruct (isdigit (char_at text i)) eqn:Hd.
  { destruct (scan_body_number text Hfit fuel i stats Hinv Hlt Hfuel Hc Hm Ha Hd)
      as [j [Hb [[Hj _] Hij]]].
    rewrite Hb. eexists; split; [reflexivity|].
    unfold scan_inv. cbn [fst snd tokens words chars].
    repeat split; try lia. }
  destruct (is_quote (char_at text i))
    eqn:Hq.
  { destruct (scan_body_quote text Hfit fuel i stats Hinv Hlt Hfuel Hc Hm Ha Hd Hq)
      as [n [k [closed [_ [Hb [Hn [Hk [Hle _]]]]]]]].
    rewrite Hb. eexists; split; [reflexivity|].
    assert (Hdiv : 0 <= (k + 3) / 4 <= k).
    { split; [apply Z.div_pos; lia|].
      destruct (Z.eq_dec k 0) as [->|NZ]; [reflexivity|].
      apply Z.div_le_upper_bound; lia. }
    unfold scan_inv. cbn [fst snd tokens words chars].
    destruct closed; repeat split; try lia. }
  rewrite (scan_body_other text Hfit fuel i stats Hinv Hlt Hfuel Hc Hm Ha Hd Hq).
  eexists; split; [reflexivity|].
  unfold scan_inv. cbn [fst snd tokens words chars].
  repeat split; try lia.
Qed.

Lemma scan_init_inv (text : string) :
  scan_inv text (scan_init (Z.of_nat (strlen text))).
Proof. unfold scan_inv, scan_init. cbn. lia. Qed.

Lemma scan_reaches_inv (text : string) (fuel : nat) (s : Z * TokenStats) :
  fits_int text -> (strlen text < fuel)%nat ->
  scan_reaches fuel text s -> scan_inv text s.
Proof.
  intros Hfit Hfuel H. induction H as [|s s' Hr IH Hc Hb].
  - rewrite fits_int_len by assumption. apply scan_init_inv.
  - rewrite fits_int_len in * by assumption.
    unfold scan_cond in Hc. injection Hc as Hc. apply Z.ltb_lt in Hc.
    destruct (scan_body_progress text fuel s Hfit IH Hc) as [s2 [Hb2 [Hi _]]].
    + unfold scan_inv in IH. lia.
    + rewrite Hb in Hb2. injection Hb2 as <-. assumption.
Qed.

(** The main loop ends at the end of the text, in a state it reaches. *)
Lemma scan_loop_total (text : string) (fuel : nat) :
  fits_int text -> (strlen text < fuel)%nat ->
  exists stats,
    while (scan_cond (Z.of_nat (strlen text)))
          (scan_body fuel text (Z.of_nat (strlen text))) fuel
          (scan_init (Z.of_nat (strlen text)))
    = Ok (Z.of_nat (strlen text), stats) /\
    scan_inv text (Z.of_nat (strlen text), stats).
Proof.
  intros Hfit Hfuel.
  destruct (while_total (scan_cond (Z.of_nat (strlen text)))
              (scan_body fuel text (Z.of_nat (strlen text)))
              (scan_inv text)
              (fun s => Z.to_nat (Z.of_nat (strlen text) - fst s)))
    with (fuel := fuel) (s := scan_init (Z.of_nat (strlen text)))
    as [[j stats] [Hrun [Hinv Hc]]].
  - intros s Hinv. unfold scan_cond. eexists; split; [reflexivity|].
    intros Hlt. apply Z.ltb_lt in Hlt.
    destruct (scan_body_progress text fuel s Hfit Hinv Hlt)
      as [s' [Hb [Hinv' [Hadv _]]]].
    + unfold scan_inv in Hinv. lia.
    + exists s'. split; [assumption|]. split; [assumption|].
      unfold scan_inv in Hinv, Hinv'. lia.
  - apply scan_init_inv.
  - cbn. lia.
  - unfold scan_cond in Hc. injection Hc as Hc. apply Z.ltb_ge in Hc.
    cbn [fst] in Hc. assert (Hinv' := Hinv).
    unfold scan_inv in Hinv'. cbn [fst snd] in Hinv'.
    assert (j = Z.of_nat (strlen text)) by lia. subst j.
    exists stats. split; assumption.
Qed.

Lemma estimate_tokens_total (text : string) (fuel : nat) :
  fits_int text -> (strlen text < fuel)%nat ->
  exists stats, estimate_tokens fuel text = Ok stats /\
                scan_inv text (Z.of_nat (strlen text), stats).
Proof.
  intros Hfit Hfuel. unfold estimate_tokens.
  rewrite fits_int_len by assumption.
  destruct (scan_loop_total text fuel Hfit Hfuel) as [stats [Hrun Hinv]].
  rewrite Hrun. cbn. exists stats. split; [reflexivity | assumption].
Qed.

(** The state the main loop ends in is one the scan reaches. *)
Lemma scan_while_reaches (text : string) (fuel n : nat)
      (s r : Z * TokenStats) :
  scan_reaches fuel text s ->
  while (scan_cond (wrap_int (Z.of_nat (strlen text))))
        (scan_body fuel text (wrap_int (Z.of_nat (strlen text)))) n s = Ok r ->
  scan_reaches fuel text r.
Proof.
  revert s. induction n as [|n IH]; intros s Hs H; [discriminate|].
  cbn [while] in H. unfold scan_cond at 1 in H. cbn [bind] in H.
  destruct (fst s <? wrap_int (Z.of_nat (strlen text))) eqn:E.
  - destruct (scan_body fuel text _ s) as [s'|e] eqn:B; [|discriminate].
    cbn [bind] in H. apply (IH s'); [|assumption].
    apply (reaches_step fuel text s s'); try assumption.
    unfold scan_cond. now rewrite E.
  - injection H as <-. assumption.
Qed.

Lemma estimate_tokens_reaches (text : string) (fuel : nat) :
  fits_int text -> (strlen text < fuel)%nat ->
  exists stats, estimate_tokens fuel text = Ok stats /\
                scan_reaches fuel text (Z.of_nat (strlen text), stats).
Proof.
  intros Hfit Hfuel.
  destruct (scan_loop_total text fuel Hfit Hfuel) as [stats [Hrun _]].
  exists stats. split.
  - unfold estimate_tokens. rewrite fits_int_len by assumption.
    now rewrite Hrun.
  - apply (scan_while_reaches text fuel fuel
             (scan_init (wrap_int (Z.of_nat (strlen text))))).
    + apply reaches_init.
    + rewrite fits_int_len by assumption. assumption.
Qed.

(** ** Independence of the fuel *)

Lemma while_mono {S : Type} (cond : S -> result bool)
      (body body' : S -> result S) :
  (forall s r, body s = Ok r -> body' s = Ok r) ->
  forall fuel s r, while cond body fuel s = Ok r ->
    forall fuel', (fuel <= fuel')%nat -> while cond body' fuel' s = Ok r.
Proof.
  intros Hb fuel. induction fuel as [|fuel IH]; intros s r H fuel' Hle.
  - discriminate.
  - destruct fuel' as [|fuel']; [lia|].
    simpl in *. destruct (cond s) as [b|e]; [|discriminate]. simpl in *.
    destruct b; [|assumption].
    destruct (body s) as [s'|e] eqn:E; [|discriminate]. simpl in *.
    rewrite (Hb s s' E). simpl. apply IH with (fuel' := fuel') in H;
      [assumption | lia].
Qed.

Lemma scan_body_fuel_mono (text : string) (len : Z) (fuel fuel' : nat)
      (s r : Z * TokenStats) :
  (fuel <= fuel')%nat ->
  scan_body fuel text len s = Ok r -> scan_body fuel' text len s = Ok r.
Proof.
  intros Hle. unfold scan_body. destruct s as [i stats].
  destruct (load text i) as [c|e]; [|discriminate]. cbn [bind].
  destruct (isspace c).
  { destruct (while _ _ fuel i) as [j|e] eqn:W; [|discriminate].
    rewrite (while_fuel_mono _ _ _ _ _ W fuel' Hle). auto. }
  destruct (is_code_pattern text i len) as [n|e]; [|discriminate]. cbn [bind].
  destruct (n >? 0); [auto|].
  destruct (isalpha c).
  { destruct (while _ _ fuel i) as [j|e] eqn:W; [|discriminate].
    rewrite (while_fuel_mono _ _ _ _ _ W fuel' Hle). auto. }
  destruct (isdigit c).
  { destruct (while _ _ fuel i) as [j|e] eqn:W; [|discriminate].
    rewrite (while_fuel_mono _ _ _ _ _ W fuel' Hle). auto. }
  destruct (is_quote c); [|auto].
  destruct (while _ _ fuel (int_add i 1, 0)) as [j|e] eqn:W; [|discriminate].
  rewrite (while_fuel_mono _ _ _ _ _ W fuel' Hle). auto.
Qed.

Lemma estimate_tokens_fuel_mono (text : string) (fuel fuel' : nat)
      (r : TokenStats) :
  (fuel <= fuel')%nat ->
  estimate_tokens fuel text = Ok r -> estimate_tokens fuel' text = Ok r.
Proof.
  intros Hle. unfold estimate_tokens.
  destruct (while _ _ fuel _) as [s|e] eqn:W; [|discriminate].
  rewrite (while_mono _ _ (scan_body fuel' text _)
             (fun s r => scan_body_fuel_mono text _ fuel fuel' s r Hle)
             _ _ _ W fuel' Hle).
  auto.
Qed.

(** ** Characters no table entry starts with *)

Lemma first_match_no_head (text : string) (pos : Z) :
  0 <= pos < Z.of_nat (strlen text) ->
  pattern_head (char_at text pos) = false ->
  first_match patterns text pos = 0.
Proof.
  intros Hpos. unfold pattern_head. generalize patterns as pats.
  induction pats as [|p rest IH]; intros H; cbn [first_match existsb] in *.
  - reflexivity.
  - apply orb_false_iff in H. destruct H as [Hp Hrest].
    unfold matches_at. rewrite skipn_char_at by assumption.
    destruct (cstr_chars p) as [|a l]; [discriminate|].
    cbn [starts_with]. rewrite Hp. cbn [andb]. now apply IH.
Qed.

Lemma isalpha_no_head (c : ascii) : isalpha c = true -> pattern_head c = false.
Proof.
  destruct c as [[] [] [] [] [] [] [] []]; vm_compute; intros H;
    (reflexivity || discriminate H).
Qed.

Lemma quote_class (c : ascii) :
  is_quote c = true ->
  isspace c = false /\ pattern_head c = false /\
  isalpha c = false /\ isdigit c = false /\ Ascii.eqb c "\" = false.
Proof.
  intros H. unfold is_quote in H. apply orb_true_iff in H.
  destruct H as [H|H]; apply Ascii.eqb_eq in H; subst c;
    repeat split; reflexivity.
Qed.

(** ** The model on the sample inputs of the design document *)

Example estimate_parens : estimate_tokens 3 "()" = Ok (mkStats 2 0 2).
Proof. reflexivity. Qed.

Example estimate_one_letter : estimate_tokens 2 "a" = Ok (mkStats 1 1 1).
Proof. reflexivity. Qed.

Example estimate_ten_letters :
  estimate_tokens 11 "abcdefghij" = Ok (mkStats 3 1 10).
Proof. reflexivity. Qed.

Example estimate_number_run :
  estimate_tokens 10 "3.14.15 x" = Ok (mkStats 2 1 9).
Proof. reflexivity. Qed.

(** * The properties of the design document *)

(* Side conditions on a concrete text. *)
Ltac concrete := unfold fits_int, INT_MAX, strlen; simpl; lia.

(** C1.  When the scan of the basic estimator is at an alphabetic letter, no
    whitespace or table match applies there; the iteration consumes the
    maximal run of alphanumeric characters and underscores, adds exactly 1
    to the word count, and adds 1 token for a run of at most 4 characters,
    2 tokens for 5 to 8 characters and [(length + 3) / 4] tokens for more
    than 8.  The text "hello" gives 1 word and 2 tokens. *)
Theorem letter_run_step :
  (forall (text : string) (fuel : nat) (i : Z) (stats : TokenStats),
      fits_int text -> (strlen text < fuel)%nat ->
      scan_reaches fuel text (i, stats) ->
      i < Z.of_nat (strlen text) ->
      isalpha (char_at text i) = true ->
      isspace (char_at text i) = false /\
      is_code_pattern text i (Z.of_nat (strlen text)) = Ok 0 /\
      exists (j : Z) (stats' : TokenStats),
        scan_body fuel text (Z.of_nat (strlen text)) (i, stats)
        = Ok (j, stats') /\
        maximal_run is_word_char text i j /\ i < j /\
        (forall j', maximal_run is_word_char text i j' -> j' = j) /\
        words stats' = words stats + 1 /\
        chars stats' = chars stats /\
        (j - i <= 4 -> tokens stats' = tokens stats + 1) /\
        (5 <= j - i <= 8 -> tokens stats' = tokens stats + 2) /\
        (8 < j - i -> tokens stats' = tokens stats + (j - i + 3) / 4)) /\
  (forall fuel : nat, (5 < fuel)%nat ->
      estimate_tokens fuel "hello" = Ok (mkStats 2 1 5)).
Proof.
  split.
  - intros text fuel i stats Hfit Hfuel Hr Hlt Ha.
    pose proof (scan_reaches_inv text fuel (i, stats) Hfit Hfuel Hr) as Hinv.
    assert (Hi : 0 <= i) by (unfold scan_inv in Hinv; cbn in Hinv; lia).
    assert (Hc := isalpha_not_space _ Ha).
    assert (Hm : first_match patterns text i = 0).
    { apply first_match_no_head; [lia | now apply isalpha_no_head]. }
    split; [assumption|]. split.
    { rewrite is_code_pattern_spec by (assumption || lia). now rewrite Hm. }
    destruct (scan_body_word text Hfit fuel i stats Hinv Hlt ltac:(lia) Hc Hm Ha)
      as [j [Hb [Hmax Hij]]].
    exists j. eexists. split; [exact Hb|]. cbn [tokens words chars].
    unfold word_tokens.
    split; [assumption|]. split; [assumption|].
    split; [intros j' Hj'; now apply (maximal_run_unique is_word_char text i)|].
    repeat split; intros Hlen.
    + replace (j - i <=? 4) with true by (symmetry; apply Z.leb_le; lia).
      reflexivity.
    + replace (j - i <=? 4) with false by (symmetry; apply Z.leb_gt; lia).
      replace (j - i <=? 8) with true by (symmetry; apply Z.leb_le; lia).
      reflexivity.
    + replace (j - i <=? 4) with false by (symmetry; apply Z.leb_gt; lia).
      replace (j - i <=? 8) with false by (symmetry; apply Z.leb_gt; lia).
      reflexivity.
  - intros fuel Hfuel.
    apply (estimate_tokens_fuel_mono "hello" 6 fuel); [lia | reflexivity].
Qed.

Lemma letter_run_step_witness :
  (isspace (char_at "hello" 0) = false /\
   is_code_pattern "hello" 0 (Z.of_nat (strlen "hello")) = Ok 0 /\
   exists (j : Z) (stats' : TokenStats),
     scan_body 6 "hello" (Z.of_nat (strlen "hello")) (0, mkStats 0 0 5)
     = Ok (j, stats') /\
     maximal_run is_word_char "hello" 0 j /\ 0 < j /\
     (forall j', maximal_run is_word_char "hello" 0 j' -> j' = j) /\
     words stats' = words (mkStats 0 0 5) + 1 /\
     chars stats' = chars (mkStats 0 0 5) /\
     (j - 0 <= 4 -> tokens stats' = tokens (mkStats 0 0 5) + 1) /\
     (5 <= j - 0 <= 8 -> tokens stats' = tokens (mkStats 0 0 5) + 2) /\
     (8 < j - 0 -> tokens stats' = tokens (mkStats 0 0 5) + (j - 0 + 3) / 4)) /\
  estimate_tokens 6 "hello" = Ok (mkStats 2 1 5).
Proof.
  split.
  - apply (proj1 letter_run_step "hello" 6%nat 0 (mkStats 0 0 5)).
    + concrete.
    + concrete.
    + apply reaches_init.
    + concrete.
    + reflexivity.
  - apply (proj2 letter_run_step 6%nat). lia.
Defined.

Lemma first_match_split (text : string) (pos : Z)
      (before after : list string) (p : string) :
  (forall q, In q before -> matches_at text pos q = false) ->
  matches_at text pos p = true ->
  first_match (before ++ p :: after) text pos = Z.of_nat (strlen p).
Proof.
  intros Hbefore Hp. induction before as [|q before IH]; cbn [app first_match].
  - now rewrite Hp.
  - rewrite (Hbefore q) by now left.
    apply IH. intros q' Hq'. apply Hbefore. now right.
Qed.

Lemma patterns_nonempty : Forall (fun p => (0 < strlen p)%nat) patterns.
Proof. repeat constructor. Qed.

(** C2.  Where the basic estimator tests the pattern table, the entries are
    tried in their declared order and the first one whose text matches at the
    position is taken, whatever longer entry comes later: the iteration
    counts one token and moves the scan by the length of that entry.  So the
    entry "/*" is selected on the text "/**", although the later entry "/**"
    matches there too. *)
Theorem first_table_match_wins :
  (forall (text : string) (fuel : nat) (i : Z) (stats : TokenStats)
          (before after : list string) (p : string),
      fits_int text -> (strlen text < fuel)%nat ->
      scan_reaches fuel text (i, stats) ->
      i < Z.of_nat (strlen text) ->
      isspace (char_at text i) = false ->
      patterns = before ++ p :: after ->
      (forall q, In q before -> matches_at text i q = false) ->
      matches_at text i p = true ->
      is_code_pattern text i (Z.of_nat (strlen text))
      = Ok (Z.of_nat (strlen p)) /\
      scan_body fuel text (Z.of_nat (strlen text)) (i, stats)
      = Ok (i + Z.of_nat (strlen p),
            mkStats (tokens stats + 1) (words stats) (chars stats))) /\
  (nth_error patterns 21 = Some "/*" /\
   nth_error patterns 23 = Some "/**" /\
   matches_at "/**" 0 "/*" = true /\
   matches_at "/**" 0 "/**" = true /\
   is_code_pattern "/**" 0 3 = Ok 2 /\
   scan_body 4 "/**" 3 (0, mkStats 0 0 3) = Ok (2, mkStats 1 0 3)).
Proof.
  split.
  - intros text fuel i stats before after p Hfit Hfuel Hr Hlt Hc Hsplit
           Hbefore Hp.
    pose proof (scan_reaches_inv text fuel (i, stats) Hfit Hfuel Hr) as Hinv.
    assert (Hi : 0 <= i) by (unfold scan_inv in Hinv; cbn in Hinv; lia).
    assert (Hm : first_match patterns text i = Z.of_nat (strlen p)).
    { rewrite Hsplit. now apply first_match_split. }
    assert (Hpos : (0 < strlen p)%nat).
    { pose proof patterns_nonempty as Hne. rewrite Forall_forall in Hne.
      apply Hne. rewrite Hsplit. apply in_or_app. right. now left. }
    split.
    + rewrite is_code_pattern_spec by (assumption || lia). now rewrite Hm.
    + rewrite (scan_body_pattern text Hfit fuel i stats Hinv Hlt ltac:(lia) Hc)
        by lia.
      now rewrite Hm.
  - repeat split; reflexivity.
Qed.

Lemma first_table_match_wins_witness :
  is_code_pattern "/**" 0 (Z.of_nat (strlen "/**"))
  = Ok (Z.of_nat (strlen "/*")) /\
  scan_body 4 "/**" (Z.of_nat (strlen "/**")) (0, mkStats 0 0 3)
  = Ok (0 + Z.of_nat (strlen "/*"),
        mkStats (tokens (mkStats 0 0 3) + 1) (words (mkStats 0 0 3))
                (chars (mkStats 0 0 3))).
Proof.
  apply (proj1 first_table_match_wins "/**" 4%nat 0 (mkStats 0 0 3)
           (firstn 21 patterns) (skipn 22 patterns) "/*").
  - concrete.
  - concrete.
  - apply reaches_init.
  - concrete.
  - reflexivity.
  - reflexivity.
  - intros q Hq. simpl in Hq.
    repeat (destruct Hq as [<-|Hq]; [reflexivity|]). contradiction.
  - reflexivity.
Defined.

(** C3.  When the scan of the basic estimator is at a double or single quote
    (no earlier rule applies to one), the iteration counts 1 token for the
    opening quote, scans the content as [spec_quoted_scan] words it (an
    escaped pair is two positions counting 2, any other character one
    position counting 1, up to the same quote character or the end of the
    input), adds [(stringCharCount + 3) / 4] tokens for the content, and adds
    1 more token and consumes the closing quote exactly when one was found
    before the end of the input. *)
Theorem quoted_string_step :
  (forall (text : string) (fuel : nat) (i : Z) (stats : TokenStats),
      fits_int text -> (strlen text < fuel)%nat ->
      scan_reaches fuel text (i, stats) ->
      i < Z.of_nat (strlen text) ->
      is_quote (char_at text i) = true ->
      isspace (char_at text i) = false /\
      is_code_pattern text i (Z.of_nat (strlen text)) = Ok 0 /\
      isalpha (char_at text i) = false /\ isdigit (char_at text i) = false /\
      exists (n k : Z) (closed : bool),
        spec_quoted_scan (char_at text i)
                         (skipn (Z.to_nat (i + 1)) (cstr_chars text))
        = (n, k, closed) /\
        scan_body fuel text (Z.of_nat (strlen text)) (i, stats)
        = Ok (i + 1 + n + (if closed then 1 else 0),
              mkStats (tokens stats + 1 + (k + 3) / 4
                       + (if closed then 1 else 0))
                      (words stats) (chars stats)) /\
        (closed = true ->
         i + 1 + n < Z.of_nat (strlen text) /\
         char_at text (i + 1 + n) = char_at text i) /\
        (closed = false -> i + 1 + n = Z.of_nat (strlen text))) /\
  (forall fuel : nat, (4 < fuel)%nat ->
      estimate_tokens fuel (dq (String "a" (String "b" (dq ""))))
      = Ok (mkStats 3 0 4)) /\
  (forall fuel : nat, (4 < fuel)%nat ->
      estimate_tokens fuel (dq "abc") = Ok (mkStats 2 0 4)) /\
  (forall fuel : nat, (6 < fuel)%nat ->
      estimate_tokens fuel (dq (String "a" (String "\" (dq (String "b" (dq ""))))))
      = Ok (mkStats 3 0 6)).
Proof.
  split; [|repeat split; intros fuel Hfuel].
  - intros text fuel i stats Hfit Hfuel Hr Hlt Hq.
    pose proof (scan_reaches_inv text fuel (i, stats) Hfit Hfuel Hr) as Hinv.
    assert (Hi : 0 <= i) by (unfold scan_inv in Hinv; cbn in Hinv; lia).
    destruct (quote_class _ Hq) as [Hc [Hh [Ha [Hd _]]]].
    assert (Hm : first_match patterns text i = 0)
      by (apply first_match_no_head; [lia | assumption]).
    repeat (split; [assumption|]).
    split.
    { rewrite is_code_pattern_spec by (assumption || lia). now rewrite Hm. }
    repeat (split; [assumption|]).
    destruct (scan_body_quote text Hfit fuel i stats Hinv Hlt ltac:(lia)
                Hc Hm Ha Hd Hq)
      as [n [k [closed [Hs [Hb [Hn [Hk [Hle [Hcl Hop]]]]]]]]].
    exists n, k, closed. repeat (split; [assumption|]). split.
    + intros ->. split; [lia | now apply Hcl].
    + assumption.
  - apply (estimate_tokens_fuel_mono _ 5 fuel); [lia | reflexivity].
  - apply (estimate_tokens_fuel_mono _ 5 fuel); [lia | reflexivity].
  - apply (estimate_tokens_fuel_mono _ 7 fuel); [lia | reflexivity].
Qed.

Lemma quoted_string_step_witness :
  (isspace (char_at (dq "abc") 0) = false /\
   is_code_pattern (dq "abc") 0 (Z.of_nat (strlen (dq "abc"))) = Ok 0 /\
   isalpha (char_at (dq "abc") 0) = false /\
   isdigit (char_at (dq "abc") 0) = false /\
   exists (n k : Z) (closed : bool),
     spec_quoted_scan (char_at (dq "abc") 0)
                      (skipn (Z.to_nat (0 + 1)) (cstr_chars (dq "abc")))
     = (n, k, closed) /\
     scan_body 5 (dq "abc") (Z.of_nat (strlen (dq "abc"))) (0, mkStats 0 0 4)
     = Ok (0 + 1 + n + (if closed then 1 else 0),
           mkStats (tokens (mkStats 0 0 4) + 1 + (k + 3) / 4
                    + (if closed then 1 else 0))
                   (words (mkStats 0 0 4)) (chars (mkStats 0 0 4))) /\
     (closed = true ->
      0 + 1 + n < Z.of_nat (strlen (dq "abc")) /\
      char_at (dq "abc") (0 + 1 + n) = char_at (dq "abc") 0) /\
     (closed = false -> 0 + 1 + n = Z.of_nat (strlen (dq "abc")))) /\
  estimate_tokens 5 (dq (String "a" (String "b" (dq ""))))
  = Ok (mkStats 3 0 4) /\
  estimate_tokens 5 (dq "abc") = Ok (mkStats 2 0 4) /\
  estimate_tokens 7 (dq (String "a" (String "\" (dq (String "b" (dq ""))))))
  = Ok (mkStats 3 0 6).
Proof.
  split; [|split; [|split]].
  - apply (proj1 quoted_string_step (dq "abc") 5%nat 0 (mkStats 0 0 4)).
    + concrete.
    + concrete.
    + apply reaches_init.
    + concrete.
    + reflexivity.
  - apply (proj1 (proj2 quoted_string_step) 5%nat). lia.
  - apply (proj1 (proj2 (proj2 quoted_string_step)) 5%nat). lia.
  - apply (proj2 (proj2 (proj2 quoted_string_step)) 7%nat). lia.
Defined.

(** C10.  When the loop over the content of a string literal is at a
    backslash that is the last character of the input, the iteration
    consumes that one position and adds 1 to the string character count; the
    loop then stops at the end of the input, where no closing quote is
    counted or consumed; and the scan is never at a position past the end of
    the input.  A double quote followed by the four characters a, b, c and
    backslash gives 2 tokens: the content counts 4, not 5. *)
Theorem trailing_backslash_step :
  (forall (text : string) (fuel : nat) (quote : ascii) (j sc : Z)
          (stats : TokenStats),
      fits_int text -> (1 < fuel)%nat ->
      0 <= j -> j + 1 = Z.of_nat (strlen text) -> 0 <= sc <= j ->
      char_at text j = "\"%char -> is_quote quote = true ->
      quote_body text (Z.of_nat (strlen text)) (j, sc) = Ok (j + 1, sc + 1) /\
      while (quote_cond text (Z.of_nat (strlen text)) quote)
            (quote_body text (Z.of_nat (strlen text))) fuel (j, sc)
      = Ok (Z.of_nat (strlen text), sc + 1) /\
      quote_finish (Z.of_nat (strlen text)) stats
                   (Z.of_nat (strlen text), sc + 1)
      = (Z.of_nat (strlen text),
         add_tokens (int_div (int_add (sc + 1) 3) 4) stats)) /\
  (forall (text : string) (fuel : nat) (s : Z * TokenStats),
      fits_int text -> (strlen text < fuel)%nat ->
      scan_reaches fuel text s -> 0 <= fst s <= Z.of_nat (strlen text)) /\
  (forall fuel : nat, (5 < fuel)%nat ->
      estimate_tokens fuel (dq "abc\") = Ok (mkStats 2 0 5)).
Proof.
  split; [|split].
  - intros text fuel quote j sc stats Hfit Hfuel Hj Hend Hsc Hb Hq.
    unfold fits_int, INT_MAX in Hfit.
    assert (Hbody : quote_body text (Z.of_nat (strlen text)) (j, sc)
                    = Ok (j + 1, sc + 1)).
    { unfold quote_body. rewrite load_ok by lia. cbn [bind].
      rewrite (int_add_small j 1) by (unfold INT_MIN, INT_MAX; lia).
      replace (j + 1 <? Z.of_nat (strlen text)) with false
        by (symmetry; apply Z.ltb_ge; lia).
      rewrite andb_false_r.
      rewrite !int_add_small by (unfold INT_MIN, INT_MAX; lia). reflexivity. }
    split; [assumption|]. split.
    + destruct fuel as [|[|fuel]]; try lia.
      cbn [while]. unfold quote_cond at 1.
      replace (j <? Z.of_nat (strlen text)) with true
        by (symmetry; apply Z.ltb_lt; lia).
      rewrite load_ok by lia. cbn [bind]. rewrite Hb.
      destruct (quote_class _ Hq) as [_ [_ [_ [_ Hne]]]].
      rewrite Ascii.eqb_sym, Hne. cbn [negb].
      rewrite Hbody. cbn [bind]. unfold quote_cond.
      rewrite Hend, Z.ltb_irrefl. reflexivity.
    + unfold quote_finish. now rewrite Z.ltb_irrefl.
  - intros text fuel s Hfit Hfuel Hr.
    apply (scan_reaches_inv text fuel s Hfit Hfuel Hr).
  - intros fuel Hfuel.
    apply (estimate_tokens_fuel_mono _ 6 fuel); [lia | reflexivity].
Qed.

Lemma trailing_backslash_step_witness :
  (quote_body (dq "abc\") (Z.of_nat (strlen (dq "abc\"))) (4, 3)
   = Ok (4 + 1, 3 + 1) /\
   while (quote_cond (dq "abc\") (Z.of_nat (strlen (dq "abc\"))) DQUOTE)
         (quote_body (dq "abc\") (Z.of_nat (strlen (dq "abc\")))) 2 (4, 3)
   = Ok (Z.of_nat (strlen (dq "abc\")), 3 + 1) /\
   quote_finish (Z.of_nat (strlen (dq "abc\"))) (mkStats 1 0 5)
                (Z.of_nat (strlen (dq "abc\")), 3 + 1)
   = (Z.of_nat (strlen (dq "abc\")),
      add_tokens (int_div (int_add (3 + 1) 3) 4) (mkStats 1 0 5))) /\
  0 <= fst (5, mkStats 2 0 5) <= Z.of_nat (strlen (dq "abc\")) /\
  estimate_tokens 6 (dq "abc\") = Ok (mkStats 2 0 5).
Proof.
  split; [|split].
  - apply (proj1 trailing_backslash_step (dq "abc\") 2%nat DQUOTE 4 3
             (mkStats 1 0 5)).
    + concrete.
    + lia.
    + lia.
    + reflexivity.
    + lia.
    + reflexivity.
    + reflexivity.
  - apply (proj1 (proj2 trailing_backslash_step) (dq "abc\") 6%nat
             (5, mkStats 2 0 5)).
    + concrete.
    + concrete.
    + apply (reaches_step 6 (dq "abc\") (0, mkStats 0 0 5)).
      * apply reaches_init.
      * reflexivity.
      * reflexivity.
  - apply (proj2 (proj2 trailing_backslash_step) 6%nat). lia.
Defined.

(** ** The quick estimator *)

Lemma filter_length_le {A : Type} (f : A -> bool) (l : list A) :
  (List.length (filter f l) <= List.length l)%nat.
Proof.
  induction l as [|a l IH]; simpl; [lia|]. destruct (f a); simpl; lia.
Qed.

Lemma punct_loop_spec (text : string) (fuel : nat) :
  fits_int text -> (strlen text < fuel)%nat ->
  while (punct_cond (Z.of_nat (strlen text))) (punct_body text) fuel (0, 0)
  = Ok (Z.of_nat (strlen text), punct_count text).
Proof.
  intros Hfit Hfuel. unfold fits_int, INT_MAX in Hfit.
  pose (count := fun i : Z =>
          Z.of_nat (List.length
                      (filter ispunct (firstn (Z.to_nat i) (cstr_chars text))))).
  assert (Hcount : forall i, 0 <= i -> 0 <= count i <= i).
  { intros i Hi. unfold count. split; [lia|].
    pose proof (filter_length_le ispunct (firstn (Z.to_nat i) (cstr_chars text))).
    pose proof (firstn_le_length (Z.to_nat i) (cstr_chars text)). lia. }
  destruct (while_total (punct_cond (Z.of_nat (strlen text))) (punct_body text)
              (fun s => 0 <= fst s <= Z.of_nat (strlen text) /\
                        snd s = count (fst s))
              (fun s => Z.to_nat (Z.of_nat (strlen text) - fst s)))
    with (fuel := fuel) (s := (0, 0)) as [[i pc] [Hrun [[Hi Hpc] Hc]]].
  - intros [i pc] [Hi Hpc]. cbn [fst snd] in *. unfold punct_cond.
    eexists; split; [reflexivity|]. cbn [fst]. intros Hlt.
    apply Z.ltb_lt in Hlt. unfold punct_body. rewrite load_ok by lia.
    cbn [bind]. eexists; split; [reflexivity|]. cbn [fst snd].
    rewrite int_add_small by (unfold INT_MIN, INT_MAX; lia).
    split; [|lia]. split; [lia|].
    unfold count at 1. rewrite firstn_char_at by lia.
    rewrite filter_app, length_app. cbn [filter].
    pose proof (Hcount i ltac:(lia)).
    destruct (ispunct (char_at text i)).
    + rewrite int_add_small by (unfold INT_MIN, INT_MAX; lia).
      subst pc. unfold count. cbn [List.length]. lia.
    + subst pc. unfold count. cbn [List.length]. lia.
  - cbn [fst snd]. unfold count. cbn. lia.
  - cbn [fst]. lia.
  - rewrite Hrun. unfold punct_cond in Hc. injection Hc as Hc.
    apply Z.ltb_ge in Hc. cbn [fst snd] in *.
    assert (i = Z.of_nat (strlen text)) by lia. subst i.
    rewrite Hpc. unfold count, punct_count, strlen.
    now rewrite Nat2Z.id, firstn_all.
Qed.

Lemma quick_estimate_empty (text : string) (fuel : nat) :
  strlen text = 0%nat -> quick_token_estimate fuel text = Ok 0.
Proof.
  intros Hz. unfold quick_token_estimate. rewrite Hz. reflexivity.
Qed.

Lemma quick_estimate_nonempty (text : string) (fuel : nat) :
  fits_int text -> (strlen text < fuel)%nat ->
  strlen text <> 0%nat ->
  quick_token_estimate fuel text
  = Ok (if punct_count text >? Z.of_nat (strlen text) / 20
        then (Z.of_nat (strlen text) + 2) / 3
        else (Z.of_nat (strlen text) + 3) / 4).
Proof.
  intros Hfit Hfuel Hne. unfold quick_token_estimate.
  rewrite fits_int_len by assumption.
  replace (Z.of_nat (strlen text) =? 0) with false
    by (symmetry; apply Z.eqb_neq; lia).
  rewrite punct_loop_spec by assumption. cbn [bind snd].
  unfold fits_int, INT_MAX in Hfit.
  rewrite !int_add_small by (unfold INT_MIN, INT_MAX; lia).
  rewrite !int_div_small by (unfold INT_MAX; lia).
  destruct (punct_count text >? Z.of_nat (strlen text) / 20); reflexivity.
Qed.

(** C5.  The quick estimator returns 0 for a text of length 0, before any
    scan (no fuel is needed); for any other text it returns
    [(length + 2) / 3] when the text has more than [length / 20] punctuation
    characters and [(length + 3) / 4] otherwise.  A text of 100 characters
    with 10 punctuation marks gives 34. *)
Theorem quick_estimate_spec :
  (forall (text : string) (fuel : nat),
      strlen text = 0%nat -> quick_token_estimate fuel text = Ok 0) /\
  (forall (text : string) (fuel : nat),
      fits_int text -> (strlen text < fuel)%nat ->
      strlen text <> 0%nat ->
      quick_token_estimate fuel text
      = Ok (if punct_count text >? Z.of_nat (strlen text) / 20
            then (Z.of_nat (strlen text) + 2) / 3
            else (Z.of_nat (strlen text) + 3) / 4)) /\
  (forall (text : string) (fuel : nat),
      (100 < fuel)%nat -> strlen text = 100%nat -> punct_count text = 10 ->
      quick_token_estimate fuel text = Ok 34) /\
  (strlen sample_100 = 100%nat /\ punct_count sample_100 = 10 /\
   quick_token_estimate 101 sample_100 = Ok 34).
Proof.
  split; [|split; [|split]].
  - exact quick_estimate_empty.
  - exact quick_estimate_nonempty.
  - intros text fuel Hfuel Hlen Hp.
    rewrite quick_estimate_nonempty; [| unfold fits_int, INT_MAX | |];
      rewrite ?Hlen; try lia.
    rewrite Hp. reflexivity.
  - repeat split; vm_compute; reflexivity.
Qed.

Lemma quick_estimate_spec_witness :
  quick_token_estimate 0 "" = Ok 0 /\
  quick_token_estimate 12 "f(x) = a+b;"
  = Ok (if punct_count "f(x) = a+b;" >? Z.of_nat (strlen "f(x) = a+b;") / 20
        then (Z.of_nat (strlen "f(x) = a+b;") + 2) / 3
        else (Z.of_nat (strlen "f(x) = a+b;") + 3) / 4) /\
  quick_token_estimate 101 sample_100 = Ok 34.
Proof.
  split; [|split].
  - apply (proj1 quick_estimate_spec "" 0%nat). reflexivity.
  - apply (proj1 (proj2 quick_estimate_spec) "f(x) = a+b;" 12%nat).
    + concrete.
    + concrete.
    + unfold strlen. simpl. discriminate.
  - apply (proj1 (proj2 (proj2 quick_estimate_spec)) sample_100 101%nat).
    + lia.
    + reflexivity.
    + reflexivity.
Defined.

(** ** The advanced estimator *)

Lemma indicator_loop_spec (text : string) (fuel : nat) :
  fits_int text -> (strlen text < fuel)%nat ->
  while (indicator_cond (Z.of_nat (strlen text))) (indicator_body text)
        fuel (0, 0)
  = Ok (Z.of_nat (strlen text - 1), spec_code_indicators text).
Proof.
  intros Hfit Hfuel. unfold fits_int, INT_MAX in Hfit.
  pose (count := fun i : Z =>
          Z.of_nat (List.length
                      (filter (indicator_at text) (seq 0 (Z.to_nat i))))).
  assert (Hcount : forall i, 0 <= i -> 0 <= count i <= i).
  { intros i Hi. unfold count. split; [lia|].
    pose proof (filter_length_le (indicator_at text) (seq 0 (Z.to_nat i))) as L.
    rewrite length_seq in L. lia. }
  assert (Hcond : int_sub (Z.of_nat (strlen text)) 1
                  = Z.of_nat (strlen text) - 1).
  { apply int_sub_small. unfold INT_MIN, INT_MAX. lia. }
  destruct (while_total (indicator_cond (Z.of_nat (strlen text)))
              (indicator_body text)
              (fun s => 0 <= fst s <= Z.of_nat (strlen text - 1) /\
                        snd s = count (fst s))
              (fun s => Z.to_nat (Z.of_nat (strlen text) - fst s)))
    with (fuel := fuel) (s := (0, 0)) as [[i ci] [Hrun [[Hi Hci] Hc]]].
  - intros [i ci] [Hi Hci]. cbn [fst snd] in *. unfold indicator_cond.
    eexists; split; [reflexivity|]. cbn [fst]. rewrite Hcond. intros Hlt.
    apply Z.ltb_lt in Hlt. unfold indicator_body. rewrite load_ok by lia.
    cbn [bind].
    assert (Hhit : (if is_indicator (char_at text i)
                    then if i =? 0 then Ok true
                         else p <- load text (int_sub i 1) ;;
                              Ok (negb (isalpha p))
                    else Ok false)
                   = Ok (indicator_at text (Z.to_nat i))).
    { unfold indicator_at. rewrite Z2Nat.id by lia.
      destruct (is_indicator (char_at text i)); [|reflexivity]. cbn [andb].
      destruct (i =? 0) eqn:E0.
      - apply Z.eqb_eq in E0. subst i. reflexivity.
      - apply Z.eqb_neq in E0.
        rewrite int_sub_small by (unfold INT_MIN, INT_MAX; lia).
        rewrite load_ok by lia. cbn [bind].
        replace (Z.to_nat i =? 0)%nat with false
          by (symmetry; apply Nat.eqb_neq; lia).
        reflexivity. }
    rewrite Hhit. cbn [bind]. eexists; split; [reflexivity|]. cbn [fst snd].
    rewrite (int_add_small i 1) by (unfold INT_MIN, INT_MAX; lia).
    split; [|lia]. split; [lia|].
    unfold count at 1.
    replace (Z.to_nat (i + 1)) with (S (Z.to_nat i)) by lia.
    rewrite seq_S, filter_app, length_app. cbn [Nat.add filter].
    pose proof (Hcount i ltac:(lia)).
    destruct (indicator_at text (Z.to_nat i)).
    + rewrite int_add_small by (unfold INT_MIN, INT_MAX; lia).
      subst ci. unfold count. cbn [List.length]. lia.
    + subst ci. unfold count. cbn [List.length]. lia.
  - cbn [fst snd]. unfold count. cbn. lia.
  - cbn [fst]. lia.
  - rewrite Hrun. unfold indicator_cond in Hc. injection Hc as Hc.
    rewrite Hcond in Hc. apply Z.ltb_ge in Hc. cbn [fst snd] in *.
    assert (i = Z.of_nat (strlen text - 1)) by lia. subst i.
    rewrite Hci. unfold count, spec_code_indicators.
    now rewrite Nat2Z.id.
Qed.

Lemma select_multiplier_spec (code_indicators words : Z) :
  0 <= words <= INT_MAX ->
  select_multiplier code_indicators words
  = spec_multiplier code_indicators words.
Proof.
  intros Hw. unfold select_multiplier, spec_multiplier.
  rewrite !int_div_small by lia.
  destruct ((code_indicators <? words / 20) && (words >? 10));
    reflexivity.
Qed.

(** The conversion to int drops the fraction, toward zero: for a float
    [+-m * 2^e] that fits in an int, it is the quotient, truncated, of the
    signed mantissa scaled by the powers of two. *)
Lemma int_of_float_trunc (s : bool) (m : positive) (e : Z) :
  let v := Z.quot (cond_Zopp s (Z.pos m) * 2 ^ Z.max e 0) (2 ^ Z.max (- e) 0) in
  INT_MIN <= v <= INT_MAX ->
  int_of_float (S754_finite s m e) = v.
Proof.
  cbv zeta. unfold int_of_float, float_trunc_abs.
  assert (Hpow : forall k, 0 <= k -> 0 < 2 ^ k)
    by (intros k Hk; apply Z.pow_pos_nonneg; lia).
  destruct (0 <=? e) eqn:E.
  - apply Z.leb_le in E.
    rewrite Z.max_l, Z.max_r by lia. rewrite Z.pow_0_r, Z.quot_1_r.
    destruct s; cbn [cond_Zopp]; intros Hv.
    + rewrite Z.mul_opp_l in Hv.
      replace (INT_MIN <=? - (Z.pos m * 2 ^ e)) with true
        by (symmetry; apply Z.leb_le; lia).
      replace (- (Z.pos m * 2 ^ e) <=? INT_MAX) with true
        by (symmetry; apply Z.leb_le; lia).
      cbn [andb]. lia.
    + replace (INT_MIN <=? Z.pos m * 2 ^ e) with true
        by (symmetry; apply Z.leb_le; lia).
      replace (Z.pos m * 2 ^ e <=? INT_MAX) with true
        by (symmetry; apply Z.leb_le; lia).
      reflexivity.
  - apply Z.leb_gt in E.
    rewrite Z.max_r, Z.max_l by lia. rewrite Z.pow_0_r, Z.mul_1_r.
    pose proof (Hpow (- e) ltac:(lia)) as Hp.
    destruct s; cbn [cond_Zopp]; intros Hv.
    + rewrite Z.quot_opp_l in Hv by lia.
      rewrite Z.quot_div_nonneg in Hv by lia.
      replace (INT_MIN <=? - (Z.pos m / 2 ^ (- e))) with true
        by (symmetry; apply Z.leb_le; lia).
      replace (- (Z.pos m / 2 ^ (- e)) <=? INT_MAX) with true
        by (symmetry; apply Z.leb_le; lia).
      cbn [andb]. rewrite Z.quot_opp_l by lia.
      rewrite Z.quot_div_nonneg by lia. reflexivity.
    + rewrite Z.quot_div_nonneg in * by lia.
      replace (INT_MIN <=? Z.pos m / 2 ^ (- e)) with true
        by (symmetry; apply Z.leb_le; lia).
      replace (Z.pos m / 2 ^ (- e) <=? INT_MAX) with true
        by (symmetry; apply Z.leb_le; lia).
      reflexivity.
Qed.

Lemma advanced_estimate_value (text : string) (fuel : nat) :
  fits_int text -> (strlen text < fuel)%nat ->
  exists basic : TokenStats,
    estimate_tokens fuel text = Ok basic /\
    estimate_tokens_advanced fuel text
    = Ok (int_of_float
            (float_mul (float_of_int (tokens basic))
                       (spec_multiplier (spec_code_indicators text)
                                        (words basic)))).
Proof.
  intros Hfit Hfuel.
  destruct (estimate_tokens_total text fuel Hfit Hfuel) as [basic [Hb Hinv]].
  exists basic. split; [assumption|].
  unfold estimate_tokens_advanced. rewrite Hb. cbn [bind].
  rewrite fits_int_len by assumption.
  rewrite indicator_loop_spec by assumption. cbn [bind snd].
  rewrite select_multiplier_spec; [reflexivity|].
  unfold scan_inv in Hinv. cbn [fst snd] in Hinv.
  unfold fits_int in Hfit. lia.
Qed.

(** C4.  The advanced estimator returns the basic token count multiplied, in
    single-precision floating point, by the multiplier and truncated toward
    zero.  [codeIndicators] counts the characters [{ } ; ( ) [ ]] that are not
    immediately preceded by a letter, over the positions 0 to length - 2
    only; the multiplier is 1.2 when [codeIndicators > wordCount / 10],
    overwritten by 0.85 when [codeIndicators < wordCount / 20] and
    [wordCount > 10], and 1.0 otherwise. *)
Theorem advanced_estimate_spec :
  (forall (text : string) (fuel : nat),
      fits_int text -> (strlen text < fuel)%nat ->
      exists basic : TokenStats,
        estimate_tokens fuel text = Ok basic /\
        estimate_tokens_advanced fuel text
        = Ok (int_of_float
                (float_mul (float_of_int (tokens basic))
                           (spec_multiplier (spec_code_indicators text)
                                            (words basic))))) /\
  (forall (s : bool) (m : positive) (e : Z),
      INT_MIN <= Z.quot (cond_Zopp s (Z.pos m) * 2 ^ Z.max e 0)
                        (2 ^ Z.max (- e) 0) <= INT_MAX ->
      int_of_float (S754_finite s m e)
      = Z.quot (cond_Zopp s (Z.pos m) * 2 ^ Z.max e 0) (2 ^ Z.max (- e) 0)) /\
  (float_of_double (double_literal 1 1) = float_1_0 /\
   float_of_double (double_literal 12 10) = float_1_2 /\
   float_of_double (double_literal 85 100) = float_0_85) /\
  (spec_code_indicators ";" = 0 /\ spec_code_indicators ";;" = 1 /\
   spec_code_indicators "a;;" = 0) /\
  (estimate_tokens 25 sample_code = Ok (mkStats 10 3 24) /\
   spec_code_indicators sample_code = 3 /\
   estimate_tokens_advanced 25 sample_code = Ok 12) /\
  (estimate_tokens 102 sample_prose = Ok (mkStats 26 22 101) /\
   spec_code_indicators sample_prose = 0 /\
   estimate_tokens_advanced 102 sample_prose = Ok 22) /\
  estimate_tokens_advanced 12 "hello world" = Ok 4.
Proof.
  split; [exact advanced_estimate_value|].
  split; [exact int_of_float_trunc|].
  repeat split; vm_compute; reflexivity.
Qed.

Lemma advanced_estimate_spec_witness :
  exists basic : TokenStats,
    estimate_tokens 25 sample_code = Ok basic /\
    estimate_tokens_advanced 25 sample_code
    = Ok (int_of_float
            (float_mul (float_of_int (tokens basic))
                       (spec_multiplier (spec_code_indicators sample_code)
                                        (words basic)))).
Proof.
  apply (proj1 advanced_estimate_spec sample_code 25%nat).
  - unfold sample_code. concrete.
  - unfold sample_code. concrete.
Defined.

(** C9.  For the word count of any text (it is never negative),
    [wordCount / 20 <= wordCount / 10], so the two conditions of the advanced
    estimator never hold together: the second assignment never overwrites the
    first, and the multiplier is 1.2 exactly under the first condition, 0.85
    exactly under the second, and 1.0 exactly when neither holds. *)
Theorem multiplier_conditions_exclusive :
  forall (text : string) (fuel : nat),
    fits_int text -> (strlen text < fuel)%nat ->
    exists basic : TokenStats,
      estimate_tokens fuel text = Ok basic /\
      0 <= words basic /\
      int_div (words basic) 20 <= int_div (words basic) 10 /\
      forall code_indicators : Z,
        let first := code_indicators >? int_div (words basic) 10 in
        let second := (code_indicators <? int_div (words basic) 20)
                      && (words basic >? 10) in
        first && second = false /\
        (select_multiplier code_indicators (words basic) = float_1_2
         <-> first = true) /\
        (select_multiplier code_indicators (words basic) = float_0_85
         <-> second = true) /\
        (select_multiplier code_indicators (words basic) = float_1_0
         <-> first = false /\ second = false).
Proof.
  intros text fuel Hfit Hfuel.
  destruct (estimate_tokens_total text fuel Hfit Hfuel) as [basic [Hb Hinv]].
  exists basic. split; [assumption|].
  unfold scan_inv in Hinv. cbn [fst snd] in Hinv. unfold fits_int in Hfit.
  assert (Hw : 0 <= words basic <= INT_MAX) by lia.
  split; [lia|].
  rewrite !int_div_small by lia.
  assert (Hle : words basic / 20 <= words basic / 10).
  { apply Z.div_le_lower_bound; [lia|].
    pose proof (Z.mul_div_le (words basic) 20 ltac:(lia)). lia. }
  split; [assumption|].
  intros ci. cbv zeta. unfold select_multiplier.
  rewrite !int_div_small by lia.
  destruct (ci >? words basic / 10) eqn:E1;
    destruct (ci <? words basic / 20) eqn:E2;
    destruct (words basic >? 10) eqn:E3; cbn [andb];
    try (apply Z.gtb_lt in E1; apply Z.ltb_lt in E2; lia);
    (split; [reflexivity|]);
    repeat split; intros; try discriminate; try reflexivity;
    try (destruct H; discriminate).
Qed.

Lemma multiplier_conditions_exclusive_witness :
  exists basic : TokenStats,
    estimate_tokens 25 sample_code = Ok basic /\
    0 <= words basic /\
    int_div (words basic) 20 <= int_div (words basic) 10 /\
    forall code_indicators : Z,
      let first := code_indicators >? int_div (words basic) 10 in
      let second := (code_indicators <? int_div (words basic) 20)
                    && (words basic >? 10) in
      first && second = false /\
      (select_multiplier code_indicators (words basic) = float_1_2
       <-> first = true) /\
      (select_multiplier code_indicators (words basic) = float_0_85
       <-> second = true) /\
      (select_multiplier code_indicators (words basic) = float_1_0
       <-> first = false /\ second = false).
Proof.
  apply (multiplier_conditions_exclusive sample_code 25%nat).
  - unfold sample_code. concrete.
  - unfold sample_code. concrete.
Defined.

Lemma strlen_no_nul (text : string) :
  (forall c, In c (list_ascii_of_string text) -> c <> NUL) ->
  strlen text = String.length text.
Proof.
  unfold strlen. induction text as [|c r IH]; intros H; simpl.
  - reflexivity.
  - destruct (Ascii.eqb c NUL) eqn:E.
    + apply Ascii.eqb_eq in E. exfalso. apply (H c); [now left | assumption].
    + simpl. f_equal. apply IH. intros c' Hc'. apply H. now right.
Qed.

(** C6.  The basic estimator returns stats whose [chars] is exactly the
    length of the input in 8-bit characters, with [tokens] and [words] not
    negative; in every state of the scan both counters are not negative, and
    no iteration of the scan decreases either of them. *)
Theorem stats_invariants :
  forall (text : string) (fuel : nat),
    fits_int text -> (strlen text < fuel)%nat ->
    (exists stats : TokenStats,
        estimate_tokens fuel text = Ok stats /\
        scan_reaches fuel text (Z.of_nat (strlen text), stats) /\
        chars stats = Z.of_nat (strlen text) /\
        0 <= tokens stats /\ 0 <= words stats) /\
    ((forall c, In c (list_ascii_of_string text) -> c <> NUL) ->
     strlen text = String.length text) /\
    (forall s : Z * TokenStats,
        scan_reaches fuel text s ->
        0 <= tokens (snd s) /\ 0 <= words (snd s) /\
        (fst s < Z.of_nat (strlen text) ->
         exists s' : Z * TokenStats,
           scan_body fuel text (Z.of_nat (strlen text)) s = Ok s' /\
           scan_reaches fuel text s' /\
           tokens (snd s) <= tokens (snd s') /\
           words (snd s) <= words (snd s'))).
Proof.
  intros text fuel Hfit Hfuel. split; [|split].
  - destruct (estimate_tokens_reaches text fuel Hfit Hfuel) as [stats [Hb Hr]].
    pose proof (scan_reaches_inv text fuel _ Hfit Hfuel Hr) as Hinv.
    exists stats. unfold scan_inv in Hinv. cbn [fst snd] in Hinv.
    repeat split; try assumption; lia.
  - apply strlen_no_nul.
  - intros s Hr.
    pose proof (scan_reaches_inv text fuel s Hfit Hfuel Hr) as Hinv.
    assert (Hinv' := Hinv). unfold scan_inv in Hinv'.
    split; [lia|]. split; [lia|]. intros Hlt.
    destruct (scan_body_progress text fuel s Hfit Hinv Hlt ltac:(lia))
      as [s' [Hb [_ [_ [Ht Hw]]]]].
    exists s'. repeat split; try assumption.
    apply (reaches_step fuel text s s'); try assumption.
    + rewrite fits_int_len by assumption. unfold scan_cond.
      f_equal. apply Z.ltb_lt. assumption.
    + rewrite fits_int_len by assumption. assumption.
Qed.

Lemma stats_invariants_witness :
  (exists stats : TokenStats,
      estimate_tokens 25 sample_code = Ok stats /\
      scan_reaches 25 sample_code (Z.of_nat (strlen sample_code), stats) /\
      chars stats = Z.of_nat (strlen sample_code) /\
      0 <= tokens stats /\ 0 <= words stats) /\
  ((forall c, In c (list_ascii_of_string sample_code) -> c <> NUL) ->
   strlen sample_code = String.length sample_code) /\
  (forall s : Z * TokenStats,
      scan_reaches 25 sample_code s ->
      0 <= tokens (snd s) /\ 0 <= words (snd s) /\
      (fst s < Z.of_nat (strlen sample_code) ->
       exists s' : Z * TokenStats,
         scan_body 25 sample_code (Z.of_nat (strlen sample_code)) s = Ok s' /\
         scan_reaches 25 sample_code s' /\
         tokens (snd s) <= tokens (snd s') /\
         words (snd s) <= words (snd s'))).
Proof.
  apply (stats_invariants sample_code 25%nat).
  - unfold sample_code. concrete.
  - unfold sample_code. concrete.
Defined.

(** C7.  On the empty text the basic estimator returns the stats 0, 0, 0,
    the quick estimator returns 0 and the advanced estimator returns 0. *)
Theorem empty_text :
  forall fuel : nat,
    estimate_tokens (S fuel) "" = Ok (mkStats 0 0 0) /\
    quick_token_estimate fuel "" = Ok 0 /\
    estimate_tokens_advanced (S fuel) "" = Ok 0.
Proof.
  intros fuel. repeat split; reflexivity.
Qed.

Lemma quick_total (text : string) (fuel : nat) :
  fits_int text -> (strlen text < fuel)%nat ->
  exists n, quick_token_estimate fuel text = Ok n /\
            0 <= n <= Z.of_nat (strlen text).
Proof.
  intros Hfit Hfuel.
  destruct (Nat.eq_dec (strlen text) 0) as [Hz|Hnz].
  - exists 0. split; [now apply quick_estimate_empty | lia].
  - eexists. split; [now apply quick_estimate_nonempty |].
    assert (Hpos : 1 <= Z.of_nat (strlen text)) by lia.
    destruct (punct_count text >? Z.of_nat (strlen text) / 20).
    + split; [apply Z.div_pos; lia | apply Z.div_le_upper_bound; lia].
    + split; [apply Z.div_pos; lia | apply Z.div_le_upper_bound; lia].
Qed.

(** C8.  The three estimators return a value on every text, with fuel for
    no more iterations than the text has characters plus one: each iteration
    of the main loop of the basic estimator moves the scan forward by at
    least one character and never past the end.  Unterminated quotes and
    trailing escapes are no exception. *)
Theorem estimators_total :
  forall (text : string) (fuel : nat),
    fits_int text -> (strlen text < fuel)%nat ->
    (exists stats : TokenStats, estimate_tokens fuel text = Ok stats) /\
    (exists n : Z, estimate_tokens_advanced fuel text = Ok n) /\
    (exists n : Z, quick_token_estimate fuel text = Ok n) /\
    (forall s : Z * TokenStats,
        scan_reaches fuel text s ->
        fst s < Z.of_nat (strlen text) ->
        exists s' : Z * TokenStats,
          scan_body fuel text (Z.of_nat (strlen text)) s = Ok s' /\
          fst s < fst s' <= Z.of_nat (strlen text)) /\
    (estimate_tokens 5 (dq "abc") = Ok (mkStats 2 0 4) /\
     estimate_tokens 5 (dq "ab\") = Ok (mkStats 2 0 4) /\
     estimate_tokens 3 "'\" = Ok (mkStats 2 0 2) /\
     estimate_tokens_advanced 5 (dq "ab\") = Ok 2 /\
     quick_token_estimate 5 (dq "ab\") = Ok 2).
Proof.
  intros text fuel Hfit Hfuel.
  split; [|split; [|split; [|split]]].
  - destruct (estimate_tokens_total text fuel Hfit Hfuel) as [stats [Hb _]].
    now exists stats.
  - destruct (advanced_estimate_value text fuel Hfit Hfuel) as [basic [_ Ha]].
    eexists. exact Ha.
  - destruct (quick_total text fuel Hfit Hfuel) as [n [Hn _]]. now exists n.
  - intros s Hr Hlt.
    pose proof (scan_reaches_inv text fuel s Hfit Hfuel Hr) as Hinv.
    assert (Hinv0 := Hinv). unfold scan_inv in Hinv0.
    destruct (scan_body_progress text fuel s Hfit Hinv Hlt ltac:(lia))
      as [s' [Hb [Hinv' [Hadv _]]]].
    exists s'. split; [assumption|]. unfold scan_inv in Hinv'. lia.
  - repeat split; vm_compute; reflexivity.
Qed.

Lemma estimators_total_witness :
  (exists stats : TokenStats, estimate_tokens 5 (dq "ab\") = Ok stats) /\
  (exists n : Z, estimate_tokens_advanced 5 (dq "ab\") = Ok n) /\
  (exists n : Z, quick_token_estimate 5 (dq "ab\") = Ok n) /\
  (forall s : Z * TokenStats,
      scan_reaches 5 (dq "ab\") s ->
      fst s < Z.of_nat (strlen (dq "ab\")) ->
      exists s' : Z * TokenStats,
        scan_body 5 (dq "ab\") (Z.of_nat (strlen (dq "ab\"))) s = Ok s' /\
        fst s < fst s' <= Z.of_nat (strlen (dq "ab\"))) /\
  (estimate_tokens 5 (dq "abc") = Ok (mkStats 2 0 4) /\
   estimate_tokens 5 (dq "ab\") = Ok (mkStats 2 0 4) /\
   estimate_tokens 3 "'\" = Ok (mkStats 2 0 2) /\
   estimate_tokens_advanced 5 (dq "ab\") = Ok 2 /\
   quick_token_estimate 5 (dq "ab\") = Ok 2).
Proof.
  apply (estimators_total (dq "ab\") 5%nat).
  - concrete.
  - concrete.
Defined.

(** * Further properties of the code *)

(** ** The other rules of the main loop of [estimate_tokens] *)

Lemma first_match_chars_eq (pats : list string) (text : string) (pos : Z) :
  first_match pats text pos
  = first_match_chars pats (skipn (Z.to_nat pos) (cstr_chars text)).
Proof.
  induction pats as [|p rest IH]; cbn [first_match first_match_chars].
  - reflexivity.
  - unfold matches_at. now rewrite IH.
Qed.

Lemma isdigit_class (c : ascii) :
  isdigit c = true ->
  isspace c = false /\ pattern_head c = false /\ isalpha c = false.
Proof.
  destruct c as [[] [] [] [] [] [] [] []]; vm_compute; intros H;
    (discriminate H || (repeat split; reflexivity)).
Qed.




(** One iteration in terms of what it adds: no more words than tokens, no
    more tokens than positions; nothing at all on whitespace, and at least
    one token anywhere else. *)
Lemma scan_body_delta (text : string) (fuel : nat) (s : Z * TokenStats) :
  fits_int text ->
  scan_inv text s ->
  fst s < Z.of_nat (strlen text) ->
  (Z.to_nat (Z.of_nat (strlen text) - fst s) < fuel)%nat ->
  exists s', scan_body fuel text (Z.of_nat (strlen text)) s = Ok s' /\
    0 <= words (snd s') - words (snd s) <= tokens (snd s') - tokens (snd s) /\
    tokens (snd s') - tokens (snd s) <= fst s' - fst s /\
    (isspace (char_at text (fst s)) = true ->
     snd s' = snd s /\ maximal_run isspace text (fst s) (fst s')) /\
    (isspace (char_at text (fst s)) = false ->
     tokens (snd s) + 1 <= tokens (snd s')).
Proof.
  intros Hfit Hinv Hlt Hfuel. destruct s as [i stats]. cbn [fst snd] in *.
  assert (Hinv' := Hinv). unfold scan_inv in Hinv'. cbn [fst snd] in Hinv'.
  destruct (isspace (char_at text i)) eqn:Hc.
  { destruct (scan_body_space text Hfit fuel i stats Hinv Hlt Hfuel Hc)
      as [j [Hb [Hmax Hij]]].
    exists (j, stats). cbn [fst snd].
    repeat split; try lia; try assumption; try apply Hmax; discriminate. }
  pose proof (first_match_bounds text i patterns ltac:(lia) patterns_short)
    as Hfm.
  destruct (Z.eq_dec (first_match patterns text i) 0) as [Hm|Hm].
  2:{ rewrite (scan_body_pattern text Hfit fuel i stats Hinv Hlt Hfuel Hc) by lia.
      eexists; split; [reflexivity|]. cbn [fst snd tokens words chars].
      repeat split; try lia; discriminate. }
  destruct (isalpha (char_at text i)) eqn:Ha.
  { destruct (scan_body_word text Hfit fuel i stats Hinv Hlt Hfuel Hc Hm Ha)
      as [j [Hb [[Hj _] Hij]]].
    pose proof (word_tokens_bounds (j - i) ltac:(lia)).
    rewrite Hb. eexists; split; [reflexivity|].
    cbn [fst snd tokens words chars]. repeat split; try lia; discriminate. }
  destruct (isdigit (char_at text i)) eqn:Hd.
  { destruct (scan_body_number text Hfit fuel i stats Hinv Hlt Hfuel Hc Hm Ha Hd)
      as [j [Hb [[Hj _] Hij]]].
    rewrite Hb. eexists; split; [reflexivity|].
    cbn [fst snd tokens words chars]. repeat split; try lia; discriminate. }
  destruct (is_quote (char_at text i)) eqn:Hq.
  { destruct (scan_body_quote text Hfit fuel i stats Hinv Hlt Hfuel Hc Hm Ha Hd Hq)
      as [n [k [closed [_ [Hb [Hn [Hk [Hle _]]]]]]]].
    rewrite Hb. eexists; split; [reflexivity|].
    assert (Hdiv : 0 <= (k + 3) / 4 <= k).
    { split; [apply Z.div_pos; lia|].
      destruct (Z.eq_dec k 0) as [->|NZ]; [reflexivity|].
      apply Z.div_le_upper_bound; lia. }
    cbn [fst snd tokens words chars].
    destruct closed; repeat split; try lia; discriminate. }
  rewrite (scan_body_other text Hfit fuel i stats Hinv Hlt Hfuel Hc Hm Ha Hd Hq).
  eexists; split; [reflexivity|]. cbn [fst snd tokens words chars].
  repeat split; try lia; discriminate.
Qed.

Lemma is_blank_char_at (text : string) :
  is_blank text = true <->
  (forall k, 0 <= k < Z.of_nat (strlen text) ->
             isspace (char_at text k) = true).
Proof.
  unfold is_blank. rewrite forallb_forall. split.
  - intros H k Hk. apply H. now apply char_at_in.
  - intros H c Hc. destruct (In_nth _ _ NUL Hc) as [n [Hn <-]].
    specialize (H (Z.of_nat n)). unfold char_at in H.
    rewrite Nat2Z.id in H. apply H. unfold strlen. lia.
Qed.

(** In every state of the scan there are no more words than tokens; the
    token count is 0 only while everything scanned so far is whitespace; and
    a blank text counts nothing. *)
Lemma scan_reaches_counts (text : string) (fuel : nat) (s : Z * TokenStats) :
  fits_int text -> (strlen text < fuel)%nat ->
  scan_reaches fuel text s ->
  words (snd s) <= tokens (snd s) /\
  (tokens (snd s) = 0 ->
   forall k, 0 <= k < fst s -> isspace (char_at text k) = true) /\
  (is_blank text = true -> tokens (snd s) = 0 /\ words (snd s) = 0).
Proof.
  intros Hfit Hfuel H. induction H as [|s s' Hr IH Hc Hb].
  - unfold scan_init. cbn [fst snd tokens words].
    repeat split; intros; lia.
  - pose proof (scan_reaches_inv text fuel s Hfit Hfuel Hr) as Hinv.
    rewrite fits_int_len in * by assumption.
    unfold scan_cond in Hc. injection Hc as Hc. apply Z.ltb_lt in Hc.
    assert (Hinv' := Hinv). unfold scan_inv in Hinv'.
    destruct (scan_body_delta text fuel s Hfit Hinv Hc ltac:(lia))
      as [s2 [Hb2 [Hw [Ht [Hsp Hns]]]]].
    rewrite Hb in Hb2. injection Hb2 as <-.
    destruct IH as [IHo [IHz IHb]].
    split; [lia|]. split.
    + intros Hz k Hk.
      destruct (isspace (char_at text (fst s))) eqn:E.
      * destruct (Hsp eq_refl) as [Heq [_ [Hin _]]].
        rewrite Heq in Hz.
        destruct (Z_lt_ge_dec k (fst s)) as [L|G];
          [apply IHz; [assumption | lia] | apply Hin; lia].
      * specialize (Hns eq_refl). lia.
    + intros Hblank. destruct (IHb Hblank) as [Ht0 Hw0].
      rewrite is_blank_char_at in Hblank.
      destruct (Hsp (Hblank (fst s) ltac:(lia))) as [Heq _].
      rewrite Heq. split; assumption.
Qed.

(** X6.  The basic estimator never reports more words than tokens, nor more
    tokens than characters. *)
Theorem counters_ordered :
  forall (text : string) (fuel : nat),
    fits_int text -> (strlen text < fuel)%nat ->
    exists stats : TokenStats,
      estimate_tokens fuel text = Ok stats /\
      0 <= words stats <= tokens stats /\
      tokens stats <= chars stats /\
      chars stats = Z.of_nat (strlen text).
Proof.
  intros text fuel Hfit Hfuel.
  destruct (estimate_tokens_reaches text fuel Hfit Hfuel) as [stats [Hb Hr]].
  pose proof (scan_reaches_inv text fuel _ Hfit Hfuel Hr) as Hinv.
  destruct (scan_reaches_counts text fuel _ Hfit Hfuel Hr) as [Ho _].
  unfold scan_inv in Hinv. cbn [fst snd] in *.
  exists stats. repeat split; try assumption; lia.
Qed.

Lemma counters_ordered_witness :
  exists stats : TokenStats,
    estimate_tokens 25 sample_code = Ok stats /\
    0 <= words stats <= tokens stats /\
    tokens stats <= chars stats /\
    chars stats = Z.of_nat (strlen sample_code).
Proof.
  apply (counters_ordered sample_code 25%nat).
  - unfold sample_code. concrete.
  - unfold sample_code. concrete.
Defined.

(** X7.  The basic estimator reports 0 tokens exactly for the texts that hold
    whitespace only, and then 0 words as well. *)
Theorem zero_tokens_iff_blank :
  forall (text : string) (fuel : nat),
    fits_int text -> (strlen text < fuel)%nat ->
    exists stats : TokenStats,
      estimate_tokens fuel text = Ok stats /\
      (tokens stats = 0 <-> is_blank text = true) /\
      (is_blank text = true -> words stats = 0).
Proof.
  intros text fuel Hfit Hfuel.
  destruct (estimate_tokens_reaches text fuel Hfit Hfuel) as [stats [Hb Hr]].
  destruct (scan_reaches_counts text fuel _ Hfit Hfuel Hr) as [_ [Hz Hbl]].
  cbn [fst snd] in *.
  exists stats. split; [assumption|]. split; [split|].
  - intros H0. apply is_blank_char_at. now apply Hz.
  - intros H. now apply Hbl.
  - intros H. now apply Hbl.
Qed.

Lemma zero_tokens_iff_blank_witness :
  exists stats : TokenStats,
    estimate_tokens 4 "   " = Ok stats /\
    (tokens stats = 0 <-> is_blank "   " = true) /\
    (is_blank "   " = true -> words stats = 0).
Proof.
  apply (zero_tokens_iff_blank "   " 4%nat).
  - concrete.
  - concrete.
Defined.

(** X1.  At a whitespace character the iteration skips the maximal run of
    whitespace and counts nothing. *)
Theorem whitespace_step :
  forall (text : string) (fuel : nat) (i : Z) (stats : TokenStats),
    fits_int text -> (strlen text < fuel)%nat ->
    scan_reaches fuel text (i, stats) ->
    i < Z.of_nat (strlen text) ->
    isspace (char_at text i) = true ->
    exists j : Z,
      scan_body fuel text (Z.of_nat (strlen text)) (i, stats) = Ok (j, stats) /\
      maximal_run isspace text i j /\ i < j.
Proof.
  intros text fuel i stats Hfit Hfuel Hr Hlt Hc.
  pose proof (scan_reaches_inv text fuel (i, stats) Hfit Hfuel Hr) as Hinv.
  assert (Hi : 0 <= i) by (unfold scan_inv in Hinv; cbn in Hinv; lia).
  apply (scan_body_space text Hfit fuel i stats Hinv Hlt ltac:(lia) Hc).
Qed.

Lemma whitespace_step_witness :
  exists j : Z,
    scan_body 5 "  ab" (Z.of_nat (strlen "  ab")) (0, mkStats 0 0 4)
    = Ok (j, mkStats 0 0 4) /\
    maximal_run isspace "  ab" 0 j /\ 0 < j.
Proof.
  apply (whitespace_step "  ab" 5%nat 0 (mkStats 0 0 4)).
  - concrete.
  - concrete.
  - apply reaches_init.
  - concrete.
  - reflexivity.
Defined.

(** X2.  At a digit no earlier rule applies; the iteration consumes the maximal
    run of digits and dots and counts exactly one token, whatever the length
    of the run, and no word. *)
Theorem number_run_step :
  forall (text : string) (fuel : nat) (i : Z) (stats : TokenStats),
    fits_int text -> (strlen text < fuel)%nat ->
    scan_reaches fuel text (i, stats) ->
    i < Z.of_nat (strlen text) ->
    isdigit (char_at text i) = true ->
    is_code_pattern text i (Z.of_nat (strlen text)) = Ok 0 /\
    exists j : Z,
      scan_body fuel text (Z.of_nat (strlen text)) (i, stats)
      = Ok (j, mkStats (tokens stats + 1) (words stats) (chars stats)) /\
      maximal_run is_number_char text i j /\ i < j.
Proof.
  intros text fuel i stats Hfit Hfuel Hr Hlt Hd.
  pose proof (scan_reaches_inv text fuel (i, stats) Hfit Hfuel Hr) as Hinv.
  assert (Hi : 0 <= i) by (unfold scan_inv in Hinv; cbn in Hinv; lia).
  destruct (isdigit_class _ Hd) as [Hc [Hh Ha]].
  assert (Hm : first_match patterns text i = 0)
    by (apply first_match_no_head; [lia | assumption]).
  split.
  { rewrite is_code_pattern_spec by (assumption || lia). now rewrite Hm. }
  apply (scan_body_number text Hfit fuel i stats Hinv Hlt ltac:(lia)
           Hc Hm Ha Hd).
Qed.

Lemma number_run_step_witness :
  is_code_pattern "3.14.15 x" 0 (Z.of_nat (strlen "3.14.15 x")) = Ok 0 /\
  exists j : Z,
    scan_body 10 "3.14.15 x" (Z.of_nat (strlen "3.14.15 x")) (0, mkStats 0 0 9)
    = Ok (j, mkStats (tokens (mkStats 0 0 9) + 1) (words (mkStats 0 0 9))
                     (chars (mkStats 0 0 9))) /\
    maximal_run is_number_char "3.14.15 x" 0 j /\ 0 < j.
Proof.
  apply (number_run_step "3.14.15 x" 10%nat 0 (mkStats 0 0 9)).
  - concrete.
  - concrete.
  - apply reaches_init.
  - concrete.
  - reflexivity.
Defined.





(** ** The result of [is_code_pattern] *)

Lemma starts_with_shorter (p q l : list ascii) :
  starts_with (p ++ q) l = true -> starts_with p l = true.
Proof.
  revert l. induction p as [|a p IH]; intros l H; [reflexivity|].
  destruct l as [|b l]; [discriminate|]. cbn [app starts_with] in *.
  apply andb_true_iff in H. destruct H as [E H].
  rewrite E. cbn [andb]. now apply IH.
Qed.

Lemma first_match_chars_range (l : list ascii) :
  first_match_chars patterns l = 0 \/ first_match_chars patterns l = 1 \/
  first_match_chars patterns l = 2.
Proof.
  unfold patterns. cbn [first_match_chars].
  repeat match goal with
         | |- context [if starts_with ?p l then _ else _] =>
             let E := fresh "E" in
             destruct (starts_with p l) eqn:E;
             [first [ now (cbn; auto)
                    | exfalso;
                      apply (starts_with_shorter
                               ["/"%char; "*"%char] ["*"%char]) in E;
                      cbn in *; congruence ] |]
         end.
  now left.
Qed.

Lemma first_match_chars_head (c : ascii) (l : list ascii) :
  pattern_head c = false -> first_match_chars patterns (c :: l) = 0.
Proof.
  unfold pattern_head. generalize patterns as pats.
  induction pats as [|p rest IH]; intros H; cbn [first_match_chars existsb] in *.
  - reflexivity.
  - apply orb_false_iff in H. destruct H as [Hp Hrest].
    destruct (cstr_chars p) as [|a q]; [discriminate|].
    cbn [starts_with]. rewrite Hp. cbn [andb]. now apply IH.
Qed.

Lemma pattern_head_punct (c : ascii) :
  pattern_head c = true -> ispunct c = true.
Proof.
  destruct c as [[] [] [] [] [] [] [] []]; vm_compute; intros H;
    (reflexivity || discriminate H).
Qed.

(** X8.  [is_code_pattern] answers 0, 1 or 2 and never 3: the entry of three
    characters comes after the entry that is its first two characters, so it
    is never the first match.  A match lies within the text and starts at a
    punctuation character; at the end of the text there is none. *)
Theorem code_pattern_range :
  forall (text : string) (pos : Z),
    fits_int text -> 0 <= pos <= Z.of_nat (strlen text) ->
    exists n : Z,
      is_code_pattern text pos (Z.of_nat (strlen text)) = Ok n /\
      (n = 0 \/ n = 1 \/ n = 2) /\
      pos + n <= Z.of_nat (strlen text) /\
      (0 < n -> ispunct (char_at text pos) = true).
Proof.
  intros text pos Hfit Hpos.
  exists (first_match patterns text pos).
  split; [now apply is_code_pattern_spec|].
  split; [rewrite first_match_chars_eq; apply first_match_chars_range|].
  split; [apply (first_match_bounds text pos patterns Hpos patterns_short)|].
  intros Hn.
  destruct (Z.eq_dec pos (Z.of_nat (strlen text))) as [->|Hne].
  - rewrite first_match_chars_eq, Nat2Z.id in Hn.
    unfold strlen in Hn. rewrite skipn_all in Hn. cbn in Hn. lia.
  - apply pattern_head_punct.
    destruct (pattern_head (char_at text pos)) eqn:E; [reflexivity|].
    rewrite first_match_chars_eq, skipn_char_at in Hn by lia.
    rewrite first_match_chars_head in Hn by assumption. lia.
Qed.

Lemma code_pattern_range_witness :
  exists n : Z,
    is_code_pattern "/**" 0 (Z.of_nat (strlen "/**")) = Ok n /\
    (n = 0 \/ n = 1 \/ n = 2) /\
    0 + n <= Z.of_nat (strlen "/**") /\
    (0 < n -> ispunct (char_at "/**" 0) = true).
Proof.
  apply (code_pattern_range "/**" 0).
  - concrete.
  - concrete.
Defined.

(** ** The quick estimator *)

(** X9.  The quick estimate of a text that is not empty lies between a quarter
    and a third of the length, rounded up: it is at least 1 and at most the
    length.  It is 0 for the empty text only. *)
Theorem quick_estimate_bounds :
  forall (text : string) (fuel : nat),
    fits_int text -> (strlen text < fuel)%nat ->
    exists n : Z,
      quick_token_estimate fuel text = Ok n /\
      (n = 0 <-> strlen text = 0%nat) /\
      (Z.of_nat (strlen text) + 3) / 4 <= n <= (Z.of_nat (strlen text) + 2) / 3 /\
      n <= Z.of_nat (strlen text).
Proof.
  intros text fuel Hfit Hfuel.
  destruct (Nat.eq_dec (strlen text) 0) as [Hz|Hnz].
  - exists 0. rewrite quick_estimate_empty by assumption. rewrite Hz.
    repeat split; try reflexivity; cbn; lia.
  - rewrite quick_estimate_nonempty by assumption.
    eexists. split; [reflexivity|].
    assert (Hpos : 1 <= Z.of_nat (strlen text)) by lia.
    destruct (punct_count text >? Z.of_nat (strlen text) / 20);
      (split; [split; [intros H; exfalso | intros H; contradiction] |]);
      Z.div_mod_to_equations; lia.
Qed.

Lemma quick_estimate_bounds_witness :
  exists n : Z,
    quick_token_estimate 12 "f(x) = a+b;" = Ok n /\
    (n = 0 <-> strlen "f(x) = a+b;" = 0%nat) /\
    (Z.of_nat (strlen "f(x) = a+b;") + 3) / 4 <= n
    <= (Z.of_nat (strlen "f(x) = a+b;") + 2) / 3 /\
    n <= Z.of_nat (strlen "f(x) = a+b;").
Proof.
  apply (quick_estimate_bounds "f(x) = a+b;" 12%nat).
  - concrete.
  - concrete.
Defined.

(** ** The advanced estimator *)

Lemma spec_code_indicators_bounds (text : string) :
  0 <= spec_code_indicators text <= Z.of_nat (strlen text - 1).
Proof.
  unfold spec_code_indicators. split; [lia|].
  pose proof (filter_length_le (indicator_at text) (seq 0 (strlen text - 1))) as L.
  rewrite length_seq in L. lia.
Qed.

(** X10.  The count of code indicators is never negative, so the test
    [basic.words > 10] of the second condition decides nothing: whenever
    [code_indicators < basic.words / 20] holds there are at least 20 words.
    The multiplier is 0.85 exactly when the count is below a twentieth of
    the words. *)
Theorem words_guard_redundant :
  forall (text : string) (fuel : nat),
    fits_int text -> (strlen text < fuel)%nat ->
    exists (basic : TokenStats) (i code_indicators : Z),
      estimate_tokens fuel text = Ok basic /\
      while (indicator_cond (wrap_int (Z.of_nat (strlen text))))
            (indicator_body text) fuel (0, 0) = Ok (i, code_indicators) /\
      0 <= code_indicators /\
      (code_indicators <? int_div (words basic) 20) && (words basic >? 10)
      = (code_indicators <? int_div (words basic) 20) /\
      (select_multiplier code_indicators (words basic) = float_0_85
       <-> code_indicators < words basic / 20) /\
      (code_indicators < words basic / 20 -> 20 <= words basic).
Proof.
  intros text fuel Hfit Hfuel.
  destruct (estimate_tokens_total text fuel Hfit Hfuel) as [basic [Hb Hinv]].
  exists basic, (Z.of_nat (strlen text - 1)), (spec_code_indicators text).
  split; [assumption|].
  rewrite fits_int_len by assumption.
  split; [now apply indicator_loop_spec|].
  pose proof (spec_code_indicators_bounds text) as Hci.
  split; [lia|].
  unfold scan_inv in Hinv. cbn [fst snd] in Hinv. unfold fits_int in Hfit.
  assert (Hw : 0 <= words basic <= INT_MAX) by lia.
  unfold select_multiplier. rewrite !int_div_small by lia.
  assert (H20 : spec_code_indicators text < words basic / 20 ->
                20 <= words basic).
  { intros H. Z.div_mod_to_equations. lia. }
  destruct (spec_code_indicators text <? words basic / 20) eqn:E.
  - apply Z.ltb_lt in E. specialize (H20 E).
    replace (words basic >? 10) with true by (symmetry; apply Z.gtb_lt; lia).
    cbn [andb]. repeat split; auto.
  - apply Z.ltb_ge in E. cbn [andb].
    split; [reflexivity|]. split; [|assumption].
    destruct (spec_code_indicators text >? words basic / 10);
      split; intros H; try discriminate H; lia.
Qed.

Lemma words_guard_redundant_witness :
  exists (basic : TokenStats) (i code_indicators : Z),
    estimate_tokens 102 sample_prose = Ok basic /\
    while (indicator_cond (wrap_int (Z.of_nat (strlen sample_prose))))
          (indicator_body sample_prose) 102 (0, 0) = Ok (i, code_indicators) /\
    0 <= code_indicators /\
    (code_indicators <? int_div (words basic) 20) && (words basic >? 10)
    = (code_indicators <? int_div (words basic) 20) /\
    (select_multiplier code_indicators (words basic) = float_0_85
     <-> code_indicators < words basic / 20) /\
    (code_indicators < words basic / 20 -> 20 <= words basic).
Proof.
  apply (words_guard_redundant sample_prose 102%nat).
  - unfold sample_prose. concrete.
  - unfold sample_prose. concrete.
Defined.

(** X11.  On a text of whitespace only the advanced estimator returns 0. *)
Theorem advanced_blank :
  forall (text : string) (fuel : nat),
    fits_int text -> (strlen text < fuel)%nat ->
    is_blank text = true ->
    estimate_tokens_advanced fuel text = Ok 0.
Proof.
  intros text fuel Hfit Hfuel Hblank.
  destruct (estimate_tokens_reaches text fuel Hfit Hfuel) as [stats [Hb Hr]].
  destruct (scan_reaches_counts text fuel _ Hfit Hfuel Hr) as [_ [_ Hbl]].
  destruct (Hbl Hblank) as [Ht Hw]. cbn [snd] in *.
  destruct (advanced_estimate_value text fuel Hfit Hfuel) as [basic [Hb' Ha]].
  rewrite Hb in Hb'. injection Hb' as <-.
  rewrite Ha, Ht. unfold spec_multiplier.
  destruct ((spec_code_indicators text <? words stats / 20)
            && (words stats >? 10));
    [reflexivity|].
  destruct (spec_code_indicators text >? words stats / 10); reflexivity.
Qed.

Lemma advanced_blank_witness :
  estimate_tokens_advanced 4 "   " = Ok 0.
Proof.
  apply (advanced_blank "   " 4%nat).
  - concrete.
  - concrete.
  - reflexivity.
Defined.

(** ** is_separator *)

(** X12.  No letter and no digit is a separator; among the printable ASCII
    characters the separators are exactly the characters that are not
    alphanumeric; and the underscore is the one character that is both a
    separator and a character of a word for [estimate_tokens]. *)
Theorem separator_classes :
  forall c : ascii,
    is_separator c && isalnum c = false /\
    (32 <=? code c) && (code c <=? 126) && negb (isalnum c)
    = (32 <=? code c) && (code c <=? 126) && is_separator c /\
    is_separator c && is_word_char c = Ascii.eqb c "_".
Proof.
  intros c. destruct c as [[] [] [] [] [] [] [] []];
    repeat split; vm_compute; reflexivity.
Qed.

(** ** print_stats *)

Lemma print_stats_ok (text label : string) (fuel : nat) :
  fits_int text -> (strlen text < fuel)%nat ->
  exists (stats : TokenStats) (quick : Z),
    estimate_tokens fuel text = Ok stats /\
    quick_token_estimate fuel text = Ok quick /\
    print_stats fuel label text = Ok (stats_items label text stats quick).
Proof.
  intros Hfit Hfuel.
  destruct (advanced_estimate_value text fuel Hfit Hfuel) as [stats [Hb Ha]].
  destruct (quick_total text fuel Hfit Hfuel) as [quick [Hq _]].
  exists stats, quick. repeat split; try assumption.
  unfold print_stats. rewrite Hb, Ha, Hq. reflexivity.
Qed.

(** X13.  [print_stats] divides the character count by the token count without a
    test: the token count is 0 exactly for a text of whitespace only (the
    empty text too), and the ratio it then writes is not a number or is
    infinite.  For any other text the divisor is at least 1. *)
Theorem print_stats_ratio :
  forall (text label : string) (fuel : nat),
    fits_int text -> (strlen text < fuel)%nat ->
    exists (stats : TokenStats) (quick : Z),
      print_stats fuel label text = Ok (stats_items label text stats quick) /\
      estimate_tokens fuel text = Ok stats /\
      In (OutFloat (float_div (float_of_int (chars stats))
                              (float_of_int (tokens stats))))
         (stats_items label text stats quick) /\
      (is_blank text = false -> 1 <= tokens stats) /\
      (is_blank text = true ->
       float_div (float_of_int (chars stats)) (float_of_int (tokens stats))
       = S754_nan \/
       exists s : bool,
         float_div (float_of_int (chars stats)) (float_of_int (tokens stats))
         = S754_infinity s).
Proof.
  intros text label fuel Hfit Hfuel.
  destruct (print_stats_ok text label fuel Hfit Hfuel)
    as [stats [quick [Hb [Hq Hp]]]].
  exists stats, quick. split; [assumption|]. split; [assumption|].
  destruct (estimate_tokens_reaches text fuel Hfit Hfuel) as [stats' [Hb' Hr]].
  rewrite Hb in Hb'. injection Hb' as <-.
  pose proof (scan_reaches_inv text fuel _ Hfit Hfuel Hr) as Hinv.
  destruct (scan_reaches_counts text fuel _ Hfit Hfuel Hr) as [_ [Hz Hbl]].
  unfold scan_inv in Hinv. cbn [fst snd] in *.
  split; [|split].
  - unfold stats_items. cbn [In]. do 20 right. now left.
  - intros Hnb.
    destruct (Z.eq_dec (tokens stats) 0) as [H0|H0]; [|lia].
    exfalso. specialize (Hz H0). apply is_blank_char_at in Hz. congruence.
  - intros Hblank. destruct (Hbl Hblank) as [Ht _]. rewrite Ht.
    change (float_of_int 0) with (S754_zero false).
    unfold float_div.
    destruct (float_of_int (chars stats)) as [s| s| |s m e]; cbn [SFdiv];
      [now left | right; eexists; reflexivity | now left
       | right; eexists; reflexivity].
Qed.

Lemma print_stats_ratio_witness :
  exists (stats : TokenStats) (quick : Z),
    print_stats 4 "User Input" "   "
    = Ok (stats_items "User Input" "   " stats quick) /\
    estimate_tokens 4 "   " = Ok stats /\
    In (OutFloat (float_div (float_of_int (chars stats))
                            (float_of_int (tokens stats))))
       (stats_items "User Input" "   " stats quick) /\
    (is_blank "   " = false -> 1 <= tokens stats) /\
    (is_blank "   " = true ->
     float_div (float_of_int (chars stats)) (float_of_int (tokens stats))
     = S754_nan \/
     exists s : bool,
       float_div (float_of_int (chars stats)) (float_of_int (tokens stats))
       = S754_infinity s).
Proof.
  apply (print_stats_ratio "   " "User Input" 4%nat).
  - concrete.
  - concrete.
Defined.

(** ** main: reading a line *)


Lemma strlen_of_list_le (l : list ascii) :
  (strlen (string_of_list_ascii l) <= List.length l)%nat.
Proof.
  unfold strlen.
  induction l as [|c l IH]; cbn [string_of_list_ascii cstr_chars List.length].
  - lia.
  - destruct (Ascii.eqb c NUL); cbn [List.length]; lia.
Qed.

Lemma store_nul_chars (buf : string) :
  forall k : nat, (k <= strlen buf)%nat ->
    cstr_chars (store_nul buf k) = firstn k (cstr_chars buf).
Proof.
  unfold strlen. induction buf as [|c r IH]; intros k Hk.
  - cbn. now rewrite firstn_nil.
  - cbn [cstr_chars] in *. destruct (Ascii.eqb c NUL) eqn:E.
    + cbn [List.length] in Hk. assert (k = 0%nat) by lia. subst k.
      cbn [store_nul cstr_chars]. now rewrite Ascii.eqb_refl.
    + destruct k as [|k]; cbn [store_nul cstr_chars firstn].
      * now rewrite Ascii.eqb_refl.
      * rewrite E. f_equal. apply IH. cbn [List.length] in Hk. lia.
Qed.


Lemma span_without_le (reject l : list ascii) :
  (span_without reject l <= List.length l)%nat.
Proof.
  induction l as [|c l IH]; cbn [span_without List.length]; [lia|].
  destruct (existsb (Ascii.eqb c) reject); lia.
Qed.

Lemma span_without_clean (reject l : list ascii) (c : ascii) :
  In c (firstn (span_without reject l) l) ->
  existsb (Ascii.eqb c) reject = false.
Proof.
  induction l as [|a l IH]; cbn [span_without firstn]; [intros []|].
  destruct (existsb (Ascii.eqb a) reject) eqn:E; cbn [firstn]; [intros []|].
  intros [<-|H]; [assumption | now apply IH].
Qed.




Lemma fgets_chars_split (n : nat) :
  forall stdin : list ascii,
    fst (fgets_chars n stdin) ++ snd (fgets_chars n stdin) = stdin /\
    (List.length (fst (fgets_chars n stdin)) <= n)%nat /\
    (0 < n -> stdin <> [] -> fst (fgets_chars n stdin) <> [])%nat.
Proof.
  induction n as [|n IH]; intros stdin.
  - cbn. repeat split; [lia | intros H; lia].
  - destruct stdin as [|c rest]; cbn [fgets_chars].
    + cbn. repeat split; [lia | intros _ H; now elim H].
    + destruct (Ascii.eqb c NL).
      * cbn. repeat split; [lia | intros _ _; discriminate].
      * destruct (IH rest) as [Hs [Hl _]].
        destruct (fgets_chars n rest) as [l rest']. cbn [fst snd] in *.
        cbn [app List.length]. rewrite Hs.
        repeat split; [lia | intros _ _; discriminate].
Qed.



Lemma strcmp_chars_eq (a : list ascii) :
  forall b : list ascii,
    ~ In NUL a -> ~ In NUL b -> (strcmp_chars a b = 0 <-> a = b).
Proof.
  assert (Hcode : forall c, c <> NUL -> code c <> 0).
  { intros c Hc E. apply Hc. apply code_inj. exact E. }
  induction a as [|x a IH]; intros b Ha Hb; destruct b as [|y b];
    cbn [strcmp_chars].
  - tauto.
  - split; [|discriminate]. intros E. exfalso.
    apply (Hcode y); [intros ->; apply Hb; now left | lia].
  - split; [|discriminate]. intros E. exfalso.
    apply (Hcode x); [intros ->; apply Ha; now left | lia].
  - destruct (Ascii.eqb x y) eqn:E.
    + apply Ascii.eqb_eq in E. subst y.
      rewrite IH by (intros H; first [apply Ha; now right | apply Hb; now right]).
      split; [now intros -> | now intros [=]].
    + split.
      * intros D. assert (D' : code x = code y) by lia.
        apply code_inj in D'. subst y. rewrite Ascii.eqb_refl in E.
        discriminate.
      * intros [= -> _]. rewrite Ascii.eqb_refl in E. discriminate.
Qed.

Lemma strlen_string_length (s : string) :
  ~ In NUL (list_ascii_of_string s) -> strlen s = String.length s.
Proof.
  intros H. apply strlen_no_nul. intros c Hc ->. now apply H.
Qed.

Lemma cstr_chars_prefix (l : list ascii) :
  exists tail, l = cstr_chars (string_of_list_ascii l) ++ tail.
Proof.
  induction l as [|c l [tail IH]]; cbn [string_of_list_ascii cstr_chars].
  - now exists [].
  - destruct (Ascii.eqb c NUL).
    + now exists (c :: l).
    + exists tail. cbn [app]. now rewrite <- IH.
Qed.

(** ** main: one iteration of the interactive loop *)

(** An iteration writes the prompt and then: at the end of the input it
    leaves the loop; otherwise it consumes between 1 and 4095 bytes, of which
    the text is a prefix without a newline, and leaves the loop on the text
    quit, goes on without a report on the empty text, and writes the report
    of [print_stats] on any other text. *)
Lemma main_body_cases (fuel : nat) (stdin : list ascii)
      (out : list out_item) (flag : bool) :
  (4095 < fuel)%nat ->
  (stdin = [] /\
   main_body fuel (stdin, out, flag)
   = Ok ([], out ++ [OutText (String NL "> ")], false)) \/
  exists (consumed rest tail : list ascii) (text : string),
    stdin = consumed ++ rest /\
    (1 <= List.length consumed <= 4095)%nat /\
    consumed = cstr_chars text ++ tail /\
    ~ In NL (cstr_chars text) /\
    ((cstr_chars text = cstr_chars "quit" /\
      main_body fuel (stdin, out, flag)
      = Ok (rest, out ++ [OutText (String NL "> ")], false)) \/
     (cstr_chars text = [] /\
      main_body fuel (stdin, out, flag)
      = Ok (rest, out ++ [OutText (String NL "> ")], true)) \/
     (cstr_chars text <> cstr_chars "quit" /\ cstr_chars text <> [] /\
      exists (stats : TokenStats) (quick : Z),
        estimate_tokens fuel text = Ok stats /\
        quick_token_estimate fuel text = Ok quick /\
        main_body fuel (stdin, out, flag)
        = Ok (rest,
              (out ++ [OutText (String NL "> ")])
              ++ stats_items "User Input" text stats quick,
              true))).
Proof.
  intros Hfuel. destruct stdin as [|c0 r0]; [left; split; reflexivity|].
  right. unfold main_body, fgets.
  destruct (fgets_chars_split (4096 - 1) (c0 :: r0)) as [Hs [Hl Hne]].
  destruct (fgets_chars (4096 - 1) (c0 :: r0)) as [l rest]. cbn [fst snd] in *.
  set (input := string_of_list_ascii l).
  set (text := store_nul input (strcspn input (String NL ""))).
  assert (Hk : (strcspn input (String NL "") <= strlen input)%nat)
    by apply span_without_le.
  assert (Hchars : cstr_chars text
                   = firstn (strcspn input (String NL "")) (cstr_chars input))
    by (apply store_nul_chars; exact Hk).
  assert (Hlen : (strlen text <= 4095)%nat).
  { unfold strlen at 1. rewrite Hchars, length_firstn.
    pose proof (strlen_of_list_le l). fold input in H. unfold strlen in *. lia. }
  assert (Hnl : ~ In NL (cstr_chars text)).
  { rewrite Hchars. intros Hin. apply span_without_clean in Hin.
    cbn in Hin. discriminate. }
  assert (Hl1 : (1 <= List.length l)%nat).
  { assert (l <> []) by (apply Hne; [lia | discriminate]).
    destruct l; [congruence | cbn; lia]. }
  destruct (cstr_chars_prefix l) as [tail1 Ht1]. fold input in Ht1.
  exists l, rest,
    (skipn (strcspn input (String NL "")) (cstr_chars input) ++ tail1), text.
  split; [now symmetry|]. split; [lia|]. split.
  { rewrite Hchars, app_assoc, firstn_skipn. exact Ht1. }
  split; [assumption|].
  destruct (strcmp text "quit" =? 0) eqn:Eq.
  - left. split; [|reflexivity].
    apply Z.eqb_eq in Eq. unfold strcmp in Eq.
    apply strcmp_chars_eq in Eq; [assumption | apply cstr_chars_not_nul ..].
  - right. apply Z.eqb_neq in Eq.
    assert (Hnq : cstr_chars text <> cstr_chars "quit").
    { intros E. apply Eq. unfold strcmp.
      apply strcmp_chars_eq; [apply cstr_chars_not_nul .. | assumption]. }
    destruct (strlen text =? 0)%nat eqn:E0.
    + left. split; [|reflexivity]. apply Nat.eqb_eq in E0.
      now apply length_zero_iff_nil.
    + right. apply Nat.eqb_neq in E0.
      split; [assumption|]. split.
      { intros E. apply E0. unfold strlen. now rewrite E. }
      assert (Hfit : fits_int text) by (unfold fits_int, INT_MAX; lia).
      destruct (print_stats_ok text "User Input" fuel Hfit ltac:(lia))
        as [stats [quick [Hb [Hq Hp]]]].
      exists stats, quick. rewrite Hp. cbn [bind]. repeat split; assumption.
Qed.









(** X14.  Every iteration of the interactive loop returns, whatever the input:
    at the end of the input it leaves the loop; otherwise it consumes
    between 1 and 4095 bytes, the text it considers is a prefix of them
    without a newline, and it leaves the loop on quit, skips the empty
    text, and reports any other text, for which the estimators return. *)
Theorem interactive_iteration :
  forall (fuel : nat) (stdin : list ascii) (out : list out_item)
         (flag : bool),
    (4095 < fuel)%nat ->
    (stdin = [] /\
     main_body fuel (stdin, out, flag)
     = Ok ([], out ++ [OutText (String NL "> ")], false)) \/
    exists (consumed rest tail : list ascii) (text : string),
      stdin = consumed ++ rest /\
      (1 <= List.length consumed <= 4095)%nat /\
      consumed = cstr_chars text ++ tail /\
      ~ In NL (cstr_chars text) /\
      ((cstr_chars text = cstr_chars "quit" /\
        main_body fuel (stdin, out, flag)
        = Ok (rest, out ++ [OutText (String NL "> ")], false)) \/
       (cstr_chars text = [] /\
        main_body fuel (stdin, out, flag)
        = Ok (rest, out ++ [OutText (String NL "> ")], true)) \/
       (cstr_chars text <> cstr_chars "quit" /\ cstr_chars text <> [] /\
        exists (stats : TokenStats) (quick : Z),
          estimate_tokens fuel text = Ok stats /\
          quick_token_estimate fuel text = Ok quick /\
          main_body fuel (stdin, out, flag)
          = Ok (rest,
                (out ++ [OutText (String NL "> ")])
                ++ stats_items "User Input" text stats quick,
                true))).
Proof.
  intros fuel stdin out flag Hfuel. now apply main_body_cases.
Qed.

Lemma interactive_iteration_witness :
  (["h"%char; "i"%char; NL] = [] /\
   main_body 4096 (["h"%char; "i"%char; NL], [], true)
   = Ok ([], [] ++ [OutText (String NL "> ")], false)) \/
  exists (consumed rest tail : list ascii) (text : string),
    ["h"%char; "i"%char; NL] = consumed ++ rest /\
    (1 <= List.length consumed <= 4095)%nat /\
    consumed = cstr_chars text ++ tail /\
    ~ In NL (cstr_chars text) /\
    ((cstr_chars text = cstr_chars "quit" /\
      main_body 4096 (["h"%char; "i"%char; NL], [], true)
      = Ok (rest, [] ++ [OutText (String NL "> ")], false)) \/
     (cstr_chars text = [] /\
      main_body 4096 (["h"%char; "i"%char; NL], [], true)
      = Ok (rest, [] ++ [OutText (String NL "> ")], true)) \/
     (cstr_chars text <> cstr_chars "quit" /\ cstr_chars text <> [] /\
      exists (stats : TokenStats) (quick : Z),
        estimate_tokens 4096 text = Ok stats /\
        quick_token_estimate 4096 text = Ok quick /\
        main_body 4096 (["h"%char; "i"%char; NL], [], true)
        = Ok (rest,
              ([] ++ [OutText (String NL "> ")])
              ++ stats_items "User Input" text stats quick,
              true))).
Proof.
  apply (interactive_iteration 4096%nat ["h"%char; "i"%char; NL] [] true).
  lia.
Defined.

(** ** main *)

Lemma print_samples_ok (fuel : nat) (l : list (string * string)) :
  Forall (fun p => fits_int (snd p) /\ (strlen (snd p) < fuel)%nat) l ->
  exists o, print_samples fuel l = Ok o.
Proof.
  induction l as [|[label text] l IH]; intros H.
  - now exists [].
  - inversion H as [|p l' [Hfit Hlen] Hrest]; subst. cbn [snd] in *.
    destruct (print_stats_ok text label fuel Hfit Hlen)
      as [stats [quick [_ [_ Hp]]]].
    destruct (IH Hrest) as [o' Ho'].
    cbn [print_samples]. rewrite Hp, Ho'. cbn [bind]. eexists. reflexivity.
Qed.

Lemma samples_short :
  Forall (fun p => (strlen (snd p) <= 140)%nat) (combine labels samples).
Proof.
  repeat constructor; apply Nat.leb_le; reflexivity.
Qed.

(** X17.  [main] returns the status 0 on every input: the six samples are
    reported, and the interactive loop ends at the end of the input at the
    latest, with one iteration at most for each byte of it plus one; no
    call of an estimator fails on the way. *)
Theorem main_total :
  forall (stdin : list ascii) (fuel : nat),
    (4095 < fuel)%nat -> (S (List.length stdin) < fuel)%nat ->
    exists out : list out_item, main fuel stdin = Ok (0, out).
Proof.
  intros stdin fuel Hfuel Hin. unfold main.
  destruct (print_samples_ok fuel (combine labels samples)) as [o Ho].
  { eapply Forall_impl; [|exact samples_short].
    intros [label text] H. cbn [snd] in *.
    unfold fits_int, INT_MAX. split; lia. }
  rewrite Ho. cbn [bind].
  match goal with
  | |- context [while main_cond (main_body fuel) fuel ?s0] =>
      destruct (while_total main_cond (main_body fuel)
                  (fun _ => True)
                  (fun s => if snd s then S (List.length (fst (fst s)))
                            else 0%nat))
        with (fuel := fuel) (s := s0) as [s' [Hrun _]]
  end.
  - intros [[input out] flag] _. unfold main_cond. cbn [fst snd].
    exists flag. split; [reflexivity|]. intros ->.
    destruct (main_body_cases fuel input out true Hfuel)
      as [[-> Hb] | [consumed [rest [tail [text [Hs [Hl [_ [_ Hc]]]]]]]]].
    + eexists. split; [exact Hb|]. cbn [fst snd]. split; [exact I | lia].
    + assert (Hlt : (List.length rest < List.length input)%nat)
        by (rewrite Hs, length_app; lia).
      destruct Hc as [[_ Hb] | [[_ Hb] | [_ [_ [stats [quick [_ [_ Hb]]]]]]]];
        (eexists; split; [exact Hb|]); cbn [fst snd]; (split; [exact I | lia]).
  - exact I.
  - cbn [fst snd]. lia.
  - rewrite Hrun. cbn [bind]. eexists. reflexivity.
Qed.

Lemma main_total_witness :
  exists out : list out_item,
    main 4096 ["h"%char; "i"%char; NL; "q"%char; "u"%char; "i"%char; "t"%char]
    = Ok (0, out).
Proof.
  apply (main_total
           ["h"%char; "i"%char; NL; "q"%char; "u"%char; "i"%char; "t"%char]
           4096%nat).
  - lia.
  - cbn [List.length]. lia.
Defined.

(** ** A quote that is never closed *)

(** X5.  When the character at a quote does not occur again in the text, the
    iteration runs to the end of the text: everything after the quote is
    string content, counted four characters to a token, and adds no word.
    So does the apostrophe of a contraction in a sentence. *)
Theorem unclosed_quote_takes_rest :
  forall (text : string) (fuel : nat) (i : Z) (stats : TokenStats),
    fits_int text -> (strlen text < fuel)%nat ->
    scan_reaches fuel text (i, stats) ->
    i < Z.of_nat (strlen text) ->
    is_quote (char_at text i) = true ->
    (forall k, i < k < Z.of_nat (strlen text) ->
               char_at text k <> char_at text i) ->
    scan_body fuel text (Z.of_nat (strlen text)) (i, stats)
    = Ok (Z.of_nat (strlen text),
          mkStats (tokens stats + 1 + (Z.of_nat (strlen text) - i + 2) / 4)
                  (words stats) (chars stats)).
Proof.
  intros text fuel i stats Hfit Hfuel Hr Hlt Hq Hno.
  pose proof (scan_reaches_inv text fuel (i, stats) Hfit Hfuel Hr) as Hinv.
  assert (Hi : 0 <= i) by (unfold scan_inv in Hinv; cbn in Hinv; lia).
  destruct (quote_class _ Hq) as [Hc [Hh [Ha [Hd _]]]].
  assert (Hm : first_match patterns text i = 0)
    by (apply first_match_no_head; [lia | assumption]).
  destruct (scan_body_quote text Hfit fuel i stats Hinv Hlt ltac:(lia)
              Hc Hm Ha Hd Hq)
    as [n [k [closed [_ [Hb [Hn [Hk [Hle [Hcl Hop]]]]]]]]].
  destruct closed.
  - exfalso. apply (Hno (i + 1 + n)); [lia | now apply Hcl].
  - specialize (Hop eq_refl). rewrite Hb. subst k.
    rewrite !Z.add_0_r.
    replace (Z.of_nat (strlen text) - i + 2) with (n + 3) by lia.
    now rewrite Hop.
Qed.

Lemma unclosed_quote_takes_rest_witness :
  scan_body 11 "don't stop" (Z.of_nat (strlen "don't stop")) (3, mkStats 1 1 10)
  = Ok (Z.of_nat (strlen "don't stop"),
        mkStats (tokens (mkStats 1 1 10) + 1
                 + (Z.of_nat (strlen "don't stop") - 3 + 2) / 4)
                (words (mkStats 1 1 10)) (chars (mkStats 1 1 10))).
Proof.
  apply (unclosed_quote_takes_rest "don't stop" 11%nat 3 (mkStats 1 1 10)).
  - concrete.
  - concrete.
  - apply (reaches_step 11 "don't stop" (0, mkStats 0 0 10)).
    + apply reaches_init.
    + reflexivity.
    + reflexivity.
  - concrete.
  - reflexivity.
  - intros k Hk. unfold strlen in Hk. simpl in Hk.
    assert (Hcases : k = 4 \/ k = 5 \/ k = 6 \/ k = 7 \/ k = 8 \/ k = 9)
      by lia.
    destruct Hcases as [->|[->|[->|[->|[->| ->]]]]]; discriminate.
Defined.

(** ** The output of main *)

(** X18.  The output of [main] starts with the banner, the reports of the six
    samples and the invitation, whatever the input, and the first prompt
    follows: nothing that is read changes what was written before. *)
Theorem main_output_prefix :
  forall (stdin : list ascii) (fuel : nat),
    (4095 < fuel)%nat -> (S (List.length stdin) < fuel)%nat ->
    exists (o suffix : list out_item),
      print_samples fuel (combine labels samples) = Ok o /\
      main fuel stdin
      = Ok (0,
            (banner ++ o ++
             [OutText (String NL (String NL
                ("Enter text to analyze (or 'quit' to exit):"
                 ++ String NL "")))])
            ++ OutText (String NL "> ") :: suffix).
Proof.
  intros stdin fuel Hfuel Hin. unfold main.
  destruct (print_samples_ok fuel (combine labels samples)) as [o Ho].
  { eapply Forall_impl; [|exact samples_short].
    intros [label text] H. cbn [snd] in *.
    unfold fits_int, INT_MAX. split; lia. }
  rewrite Ho. cbn [bind]. exists o.
  match goal with
  | |- context [while main_cond (main_body fuel) fuel (stdin, ?out0, true)] =>
      set (start := out0);
      destruct (while_total main_cond (main_body fuel)
                  (fun s => (snd s = true /\ snd (fst s) = start) \/
                            exists suffix,
                              snd (fst s)
                              = start ++ OutText (String NL "> ") :: suffix)
                  (fun s => if snd s then S (List.length (fst (fst s)))
                            else 0%nat))
        with (fuel := fuel) (s := (stdin, start, true))
        as [[[rest out] flag] [Hrun [HI Hc]]]
  end.
  - intros [[input out] flag] HI. unfold main_cond. cbn [fst snd] in *.
    exists flag. split; [reflexivity|]. intros ->.
    assert (Hout : exists suffix,
               out ++ [OutText (String NL "> ")]
               = start ++ OutText (String NL "> ") :: suffix).
    { destruct HI as [[_ ->] | [suffix ->]].
      - now exists [].
      - exists (suffix ++ [OutText (String NL "> ")]).
        now rewrite <- app_assoc. }
    destruct Hout as [suffix Hout].
    destruct (main_body_cases fuel input out true Hfuel)
      as [[-> Hb] | [consumed [rest [tail [text [Hs [Hl [_ [_ Hc]]]]]]]]].
    + eexists. split; [exact Hb|]. cbn [fst snd].
      split; [right; now exists suffix | lia].
    + assert (Hlt : (List.length rest < List.length input)%nat)
        by (rewrite Hs, length_app; lia).
      destruct Hc as [[_ Hb] | [[_ Hb] | [_ [_ [stats [quick [_ [_ Hb]]]]]]]];
        (eexists; split; [exact Hb|]); cbn [fst snd];
        (split; [right | lia]).
      * now exists suffix.
      * now exists suffix.
      * exists (suffix ++ stats_items "User Input" text stats quick).
        rewrite Hout. now rewrite <- app_assoc.
  - left. split; reflexivity.
  - cbn [fst snd]. lia.
  - rewrite Hrun. cbn [bind fst snd].
    unfold main_cond in Hc. cbn [snd] in Hc. injection Hc as ->.
    destruct HI as [[Hflag _] | [suffix Hsuf]]; [discriminate Hflag|].
    cbn [fst snd] in Hsuf. exists suffix. split; [reflexivity|].
    now rewrite Hsuf.
Qed.

Lemma main_output_prefix_witness :
  exists (o suffix : list out_item),
    print_samples 4096 (combine labels samples) = Ok o /\
    main 4096 ["q"%char; "u"%char; "i"%char; "t"%char; NL]
    = Ok (0,
          (banner ++ o ++
           [OutText (String NL (String NL
              ("Enter text to analyze (or 'quit' to exit):"
               ++ String NL "")))])
          ++ OutText (String NL "> ") :: suffix).
Proof.
  apply (main_output_prefix ["q"%char; "u"%char; "i"%char; "t"%char; NL]
           4096%nat).
  - lia.
  - cbn [List.length]. lia.
Defined.
